(** * claude-chatgpt-mcp: the rate-limited ChatGPT dispatcher of [index.ts]

    A shallow embedding of the MCP tool server of [index.ts]: the argument
    validator [isChatGPTArgs], the rate limiter [waitForRateLimit], the
    availability check [checkChatGPTAccess], the two operations
    [askChatGPT] and [getConversations], and the [CallToolRequestSchema]
    handler.

    Conventions of the model.
    - Times and delays are integer milliseconds ([Z]): [Date.now()] is an
      integer, and JSON cannot carry [NaN] or infinities.
    - A JavaScript exception is modelled by its message ([Throw msg]): every
      [catch] of the source only reads [error.message].
    - The module-level variable [lastRequestTime], the wall clock and a log of
      the externally visible actions are threaded through a state-and-error
      monad [M].
    - The outside world (the AppleScript bridge and the ChatGPT window) is an
      oracle [World] giving the outcome and the duration of each scripted
      step.  [runAppleScript] is taken to return the text osascript prints
      for the script's result; the white space the package trims off both
      ends of it, and [console.log] / [console.error] output, are not
      modelled. *)

From Stdlib Require Import ZArith List String Ascii Bool Lia DecimalString.
Import ListNotations.

Local Open Scope string_scope.
Local Open Scope Z_scope.

(** ** Characters that cannot be written inside a literal *)

Definition dquote : ascii := ascii_of_nat 34.
Definition bslash : ascii := ascii_of_nat 92.
Definition newline : ascii := ascii_of_nat 10.

Definition str1 (c : ascii) : string := String c EmptyString.

(** ** JavaScript values, as far as the validator inspects them *)

#[local] Unset Elimination Schemes.
Inductive jsval : Type :=
| JUndefined
| JNull
| JBool (b : bool)
| JNum (n : Z)
| JStr (s : string)
| JArr (items : list jsval)
| JObj (fields : list (string * jsval)).
#[local] Set Elimination Schemes.

Inductive jstype : Type :=
| TUndefined | TObject | TBoolean | TNumber | TString.

Definition jstype_eqb (a b : jstype) : bool :=
  match a, b with
  | TUndefined, TUndefined | TObject, TObject | TBoolean, TBoolean
  | TNumber, TNumber | TString, TString => true
  | _, _ => false
  end.

(** [typeof v]; note [typeof null === "object"]. *)
Definition typeof (v : jsval) : jstype :=
  match v with
  | JUndefined => TUndefined
  | JNull => TObject
  | JBool _ => TBoolean
  | JNum _ => TNumber
  | JStr _ => TString
  | JArr _ => TObject
  | JObj _ => TObject
  end.

(** ToBoolean: [undefined], [null], [false], [0] and [""] are falsy. *)
Definition truthy (v : jsval) : bool :=
  match v with
  | JUndefined | JNull => false
  | JBool b => b
  | JNum n => negb (n =? 0)
  | JStr s => negb (String.eqb s "")
  | JArr _ | JObj _ => true
  end.

Definition is_null (v : jsval) : bool :=
  match v with JNull => true | _ => false end.

Definition is_undefined (v : jsval) : bool :=
  match v with JUndefined => true | _ => false end.

Fixpoint lookup_field (k : string) (fs : list (string * jsval)) : jsval :=
  match fs with
  | [] => JUndefined
  | (k', v) :: rest => if String.eqb k k' then v else lookup_field k rest
  end.

(** Property read [v.k] (what the destructuring of [args as any] yields):
    a missing property is [undefined].  The keys of an object are distinct,
    so the first match is the only one. *)
Definition prop (v : jsval) (k : string) : jsval :=
  match v with
  | JObj fs => lookup_field k fs
  | _ => JUndefined
  end.

(** [list.includes(v)] for a list of string literals. *)
Definition includes (l : list string) (v : jsval) : bool :=
  match v with
  | JStr s => existsb (String.eqb s) l
  | _ => false
  end.

(** [v === "lit"]. *)
Definition strict_eq_str (v : jsval) (lit : string) : bool :=
  match v with
  | JStr s => String.eqb s lit
  | _ => false
  end.

(** ** [isChatGPTArgs] (index.ts, lines 196-219) *)

Definition isChatGPTArgs (args : jsval) : bool :=
  if negb (jstype_eqb (typeof args) TObject) || is_null args then false else
  let operation := prop args "operation" in
  let prompt := prop args "prompt" in
  let conversation_id := prop args "conversation_id" in
  let delay_ms := prop args "delay_ms" in
  if negb (truthy operation)
     || negb (includes ["ask"; "get_conversations"] operation) then false else
  if strict_eq_str operation "ask" && negb (truthy prompt) then false else
  if truthy prompt && negb (jstype_eqb (typeof prompt) TString) then false else
  if truthy conversation_id
     && negb (jstype_eqb (typeof conversation_id) TString) then false else
  if negb (is_undefined delay_ms)
     && negb (jstype_eqb (typeof delay_ms) TNumber) then false else
  true.

(** ** Results, state and the monad *)

Inductive result (A : Type) : Type :=
| Ok (a : A)
| Throw (msg : string).
Arguments Ok {A} a.
Arguments Throw {A} msg.

(** Externally visible actions, in the order they happen. *)
Inductive Event : Type :=
| EvProbe                     (* the process-exists script is run *)
| EvLaunch                    (* the activate-and-settle script is run *)
| EvSleep (ms : Z)            (* [await sleep(ms)] *)
| EvStamp (t : Z)             (* [lastRequestTime = t] *)
| EvAskScript (script : string)
| EvListScript.

Record State : Type := mkState {
  lastRequestTime : Z;
  clock : Z;
  log : list Event
}.

(** [let lastRequestTime = 0] at module load. *)
Definition initial (now : Z) : State := mkState 0 now [].

Definition RATE_LIMIT_DELAY : Z := 120000.

Definition M (A : Type) : Type := State -> result A * State.

Definition ret {A} (a : A) : M A := fun st => (Ok a, st).
Definition throw {A} (msg : string) : M A := fun st => (Throw msg, st).
Definition bind {A B} (m : M A) (k : A -> M B) : M B :=
  fun st =>
    match m st with
    | (Ok a, st') => k a st'
    | (Throw msg, st') => (Throw msg, st')
    end.
(** [try { m } catch (error) { h error.message }] *)
Definition try_catch {A} (m : M A) (h : string -> M A) : M A :=
  fun st =>
    match m st with
    | (Ok a, st') => (Ok a, st')
    | (Throw msg, st') => h msg st'
    end.

Notation "x <- m ;; k" := (bind m (fun x => k))
  (at level 61, m at next level, right associativity).
Notation "m ;;; k" := (bind m (fun _ => k))
  (at level 61, right associativity).

Definition emit (e : Event) : M unit :=
  fun st => (Ok tt, mkState (lastRequestTime st) (clock st) (log st ++ [e])).
Definition advance (d : Z) : M unit :=
  fun st => (Ok tt, mkState (lastRequestTime st) (clock st + d) (log st)).
Definition Date_now : M Z := fun st => (Ok (clock st), st).
Definition read_lastRequestTime : M Z := fun st => (Ok (lastRequestTime st), st).
Definition write_lastRequestTime (t : Z) : M unit :=
  fun st => (Ok tt, mkState t (clock st) (log st ++ [EvStamp t])).
Definition lift {A} (r : result A) : M A := fun st => (r, st).

(** [await sleep(ms)]: the caller resumes [ms] later (scheduler jitter is
    not modelled). *)
Definition sleep (ms : Z) : M unit := emit (EvSleep ms) ;;; advance ms.

(** ** Text utilities *)

(** The [prompt.replace] call of line 128, a global replace: every double
    quote becomes backslash, double quote; nothing else is touched. *)
Fixpoint escapeQuotes (s : string) : string :=
  match s with
  | EmptyString => EmptyString
  | String c s' =>
      if Ascii.eqb c dquote
      then String bslash (String dquote (escapeQuotes s'))
      else String c (escapeQuotes s')
  end.

(** How AppleScript reads a text literal, started just after its opening
    quote: a backslash takes the next character with it, and the first quote
    that is not taken this way closes the literal.  The result is the raw
    body and the text left after the closing quote. *)
Fixpoint scan_literal (esc : bool) (s : string) : option (string * string) :=
  match s with
  | EmptyString => None
  | String c s' =>
      let keep r := match r with
                    | Some (body, rest) => Some (String c body, rest)
                    | None => None
                    end in
      if esc then keep (scan_literal false s')
      else if Ascii.eqb c dquote then Some (EmptyString, s')
      else if Ascii.eqb c bslash then keep (scan_literal true s')
      else keep (scan_literal false s')
  end.

(** The character an escape sequence of AppleScript stands for. *)
Definition escape_char (c : ascii) : option ascii :=
  if Ascii.eqb c dquote then Some dquote
  else if Ascii.eqb c bslash then Some bslash
  else if Ascii.eqb c "n"%char then Some newline
  else if Ascii.eqb c "r"%char then Some (ascii_of_nat 13)
  else if Ascii.eqb c "t"%char then Some (ascii_of_nat 9)
  else None.

(** The text a raw literal body denotes. *)
Fixpoint decode_literal (esc : bool) (s : string) : option string :=
  match s with
  | EmptyString => if esc then None else Some EmptyString
  | String c s' =>
      if esc then
        match escape_char c, decode_literal false s' with
        | Some d, Some t => Some (String d t)
        | _, _ => None
        end
      else if Ascii.eqb c bslash then decode_literal true s'
      else match decode_literal false s' with
           | Some t => Some (String c t)
           | None => None
           end
  end.

(** A template splices [x] between two quotes.  [interpolated x] is the text
    the script then holds there, provided the literal closes at the
    template's own closing quote (and not before, and not after). *)
Definition interpolated (x : string) : option string :=
  match scan_literal false (x ++ str1 dquote) with
  | Some (body, EmptyString) => decode_literal false body
  | _ => None
  end.

Fixpoint is_prefix (p s : string) : bool :=
  match p, s with
  | EmptyString, _ => true
  | String a p', String b s' => Ascii.eqb a b && is_prefix p' s'
  | String _ _, EmptyString => false
  end.

(** [s.split(sep)] for a non-empty separator: [skip] counts the characters
    of a matched separator still to be dropped, [cur] is the piece being
    read. *)
Fixpoint split_aux (sep : string) (skip : nat) (cur : string) (s : string)
  : list string :=
  match s with
  | EmptyString => [cur]
  | String c s' =>
      match skip with
      | S k => split_aux sep k cur s'
      | O =>
          if is_prefix sep s
          then cur :: split_aux sep (Nat.pred (String.length sep)) EmptyString s'
          else split_aux sep O (cur ++ str1 c) s'
      end
  end.

Definition split (sep s : string) : list string := split_aux sep O EmptyString s.

(** [list.join(sep)]. *)
Definition join (sep : string) (l : list string) : string := String.concat sep l.

(** [`${n}`] for a length. *)
Definition string_of_nat (n : nat) : string :=
  NilEmpty.string_of_uint (Nat.to_uint n).

Definition lower (c : ascii) : ascii :=
  let n := nat_of_ascii c in
  if (Nat.leb 65 n && Nat.leb n 90)%bool then ascii_of_nat (n + 32) else c.

Fixpoint lower_string (s : string) : string :=
  match s with
  | EmptyString => EmptyString
  | String c s' => String (lower c) (lower_string s')
  end.

(** AppleScript's [is] on text: by default it ignores case (letters outside
    ASCII are compared as they are here). *)
Definition as_text_eqb (a b : string) : bool :=
  String.eqb (lower_string a) (lower_string b).

(** ** The outside world *)

(** What the scripting bridge and the ChatGPT window do during one tool
    call.  [ui_other] stands for a script whose spliced literals do not close
    where the template closes them: such a script is another program, and
    the model makes no assumption about it. *)
Record World : Type := mkWorld {
  probe_exists : result string;        (* output of the process-exists query *)
  probe_launch : result string;        (* tell application ChatGPT to activate *)
  ui_activate : result unit;           (* activate, inside the UI scripts *)
  ui_click : string -> result unit;    (* click button <name> *)
  ui_keystroke : string -> result unit;
  ui_keystroke_return : result unit;
  ui_reply : result string;            (* value of text area 2 *)
  ui_button_names : result (list string);
  ui_other : string -> result string;
  d_probe : N;
  d_launch : N;
  d_ask : N;
  d_list : N
}.

(** ** The script texts *)

Definition quoted (s : string) : string := str1 dquote ++ s ++ str1 dquote.

Definition unlines (l : list string) : string := join (str1 newline) l.

(** The inner template of lines 119-125: empty for a falsy
    [conversationId]. *)
Definition click_block (conversationId : option string) : string :=
  match conversationId with
  | Some id =>
      if String.eqb id "" then ""
      else unlines
             [ "";
               "            -- Try to find and click the specified conversation";
               "            try";
               "              click button " ++ quoted id
                 ++ " of group 1 of group 1 of window 1";
               "              delay 1";
               "            end try";
               "            " ]
  | None => ""
  end.

(** The template of lines 112-145. *)
Definition askScript (conversationId : option string) (prompt : string)
  : string :=
  unlines
    [ "";
      "      tell application " ++ quoted "ChatGPT";
      "        activate";
      "        delay 1";
      "        ";
      "        tell application " ++ quoted "System Events";
      "          tell process " ++ quoted "ChatGPT";
      "            " ++ click_block conversationId;
      "            ";
      "            -- Type in the prompt";
      "            keystroke " ++ quoted (escapeQuotes prompt);
      "            delay 0.5";
      "            keystroke return";
      "            delay 5  -- Wait for response, adjust as needed";
      "            ";
      "            -- Try to get the response (this is approximate and may need adjustments)";
      "            set responseText to " ++ quoted "";
      "            try";
      "              set responseText to value of text area 2 of group 1 of group 1 of window 1";
      "            on error";
      "              set responseText to "
        ++ quoted "Could not retrieve the response from ChatGPT.";
      "            end try";
      "            ";
      "            return responseText";
      "          end tell";
      "        end tell";
      "      end tell";
      "    " ].

(** ** What the scripts do *)

Definition rbind {A B} (r : result A) (k : A -> result B) : result B :=
  match r with
  | Ok a => k a
  | Throw msg => Throw msg
  end.

(** AppleScript's [try ... end try] without a handler: an error is dropped. *)
Definition as_try (r : result unit) : result unit :=
  match r with
  | Ok _ => Ok tt
  | Throw _ => Ok tt
  end.

(** The [repeat with chatButton in chatButtons] loop of lines 171-176. *)
Fixpoint collect_names (chatButtons conversationsList : list string)
  : list string :=
  match chatButtons with
  | [] => conversationsList
  | buttonName :: rest =>
      collect_names rest
        (if negb (as_text_eqb buttonName "New chat")
         then conversationsList ++ [buttonName]
         else conversationsList)
  end.

(** osascript prints a list of texts with the items separated by comma,
    space; the empty list prints as the empty text. *)
Definition print_list (l : list string) : string := join ", " l.

(** The response envelope; [content] always holds one text item. *)
Record Envelope : Type := mkEnvelope {
  text : string;
  isError : bool
}.

Section Server.

Variable w : World.

(** The button to click, as the script reads it: [Some None] when the block
    is absent, [None] when the spliced literal is broken. *)
Definition click_target (conversationId : option string)
  : option (option string) :=
  match conversationId with
  | Some id =>
      if String.eqb id "" then Some None
      else match interpolated id with
           | Some name => Some (Some name)
           | None => None
           end
  | None => Some None
  end.

(** The body of the ask script, lines 113-144. *)
Definition ask_steps (target : option string) (text : string) : result string :=
  rbind (ui_activate w) (fun _ =>
  rbind (match target with
         | Some name => as_try (ui_click w name)
         | None => Ok tt
         end) (fun _ =>
  rbind (ui_keystroke w text) (fun _ =>
  rbind (ui_keystroke_return w) (fun _ =>
  let responseText :=
    match ui_reply w with
    | Ok v => v
    | Throw _ => "Could not retrieve the response from ChatGPT."
    end in
  Ok responseText)))).

Definition ask_outcome (conversationId : option string) (prompt : string)
  : result string :=
  match click_target conversationId, interpolated (escapeQuotes prompt) with
  | Some target, Some text => ask_steps target text
  | _, _ => ui_other w (askScript conversationId prompt)
  end.

(** The body of the listing script, lines 160-184. *)
Definition list_outcome : result string :=
  rbind (ui_activate w) (fun _ =>
  let conversationsList :=
    match ui_button_names w with
    | Ok chatButtons => collect_names chatButtons []
    | Throw _ => ["Unable to retrieve conversations"]
    end in
  Ok (print_list conversationsList)).

(** [runAppleScript] on each of the four scripts of the source. *)
Definition run_exists_script : M string :=
  emit EvProbe ;;; advance (Z.of_N (d_probe w)) ;;; lift (probe_exists w).

Definition run_launch_script : M string :=
  emit EvLaunch ;;; advance (Z.of_N (d_launch w)) ;;; lift (probe_launch w).

Definition run_ask_script (conversationId : option string) (prompt : string)
  : M string :=
  emit (EvAskScript (askScript conversationId prompt)) ;;;
  advance (Z.of_N (d_ask w)) ;;;
  lift (ask_outcome conversationId prompt).

Definition run_list_script : M string :=
  emit EvListScript ;;; advance (Z.of_N (d_list w)) ;;; lift list_outcome.

(** ** [waitForRateLimit] (lines 59-69) *)

(** [customDelay || RATE_LIMIT_DELAY]: the left operand is used when it is
    truthy, that is, a number other than zero. *)
Definition delay_or_default (customDelay : option Z) : Z :=
  match customDelay with
  | Some d => if d =? 0 then RATE_LIMIT_DELAY else d
  | None => RATE_LIMIT_DELAY
  end.

Definition waitForRateLimit (customDelay : option Z) : M unit :=
  now <- Date_now ;;
  last <- read_lastRequestTime ;;
  let timeSinceLastRequest := now - last in
  let delayToUse := delay_or_default customDelay in
  if timeSinceLastRequest <? delayToUse then
    let waitTime := delayToUse - timeSinceLastRequest in
    sleep waitTime
  else ret tt.

(** ** [checkChatGPTAccess] (lines 72-100) *)

Definition checkChatGPTAccess : M bool :=
  try_catch
    (isRunning <- run_exists_script ;;
     (if negb (String.eqb isRunning "true") then
        try_catch (run_launch_script ;;; ret tt)
          (fun _ =>
             throw "Could not activate ChatGPT app. Please start it manually.")
      else ret tt) ;;;
     ret true)
    (fun msg =>
       throw ("Cannot access ChatGPT app. Please make sure ChatGPT is installed and properly configured. Error: "
              ++ msg)).

(** ** [askChatGPT] (lines 103-152) *)

Definition askChatGPT (prompt : string) (conversationId : option string)
  (customDelay : option Z) : M string :=
  checkChatGPTAccess ;;;
  waitForRateLimit customDelay ;;;
  now <- Date_now ;;
  write_lastRequestTime now ;;;
  try_catch (run_ask_script conversationId prompt)
    (fun msg => throw ("Failed to get response from ChatGPT: " ++ msg)).

(** ** [getConversations] (lines 155-194) *)

Definition getConversations : M (list string) :=
  checkChatGPTAccess ;;;
  try_catch
    (result <- run_list_script ;;
     let conversations := split ", " result in
     ret conversations)
    (fun _ => ret ["Error retrieving conversations"]).

(** ** The tool-call handler (lines 225-293) *)

(** The arguments handed to [askChatGPT].  After [isChatGPTArgs] the prompt
    is a non-empty string, [conversation_id] is a string or falsy (and a
    falsy value only ever meets the truthiness test of line 119), and
    [delay_ms] is a number or [undefined]. *)
Definition arg_string (v : jsval) : string :=
  match v with JStr s => s | _ => "" end.
Definition arg_opt_string (v : jsval) : option string :=
  match v with JStr s => Some s | _ => None end.
Definition arg_opt_number (v : jsval) : option Z :=
  match v with JNum n => Some n | _ => None end.

Definition handle_ask (args : jsval) : M Envelope :=
  if negb (truthy (prop args "prompt")) then
    throw "Prompt is required for ask operation"
  else
    response <- askChatGPT (arg_string (prop args "prompt"))
                  (arg_opt_string (prop args "conversation_id"))
                  (arg_opt_number (prop args "delay_ms")) ;;
    ret (mkEnvelope
           (if String.eqb response "" then "No response received from ChatGPT."
            else response)
           false).

Definition handle_get_conversations : M Envelope :=
  conversations <- getConversations ;;
  ret (mkEnvelope
         (if Nat.ltb 0 (List.length conversations) then
            "Found " ++ string_of_nat (List.length conversations)
            ++ " conversation(s):" ++ str1 newline ++ str1 newline
            ++ join (str1 newline) conversations
          else "No conversations found in ChatGPT.")
         false).

Definition handler_body (name : string) (args : jsval) : M Envelope :=
  if negb (truthy args) then throw "No arguments provided" else
  if String.eqb name "chatgpt" then
    if negb (isChatGPTArgs args) then
      throw "Invalid arguments for ChatGPT tool"
    else if strict_eq_str (prop args "operation") "ask" then
      handle_ask args
    else if strict_eq_str (prop args "operation") "get_conversations" then
      handle_get_conversations
    else throw ("Unknown operation: " ++ arg_string (prop args "operation"))
  else ret (mkEnvelope ("Unknown tool: " ++ name) true).

(** The outer [try]/[catch]: every exception becomes an error envelope. *)
Definition handler (name : string) (args : jsval) (st : State)
  : Envelope * State :=
  match handler_body name args st with
  | (Ok envelope, st') => (envelope, st')
  | (Throw msg, st') => (mkEnvelope ("Error: " ++ msg) true, st')
  end.

End Server.

(** ** Observations on states and texts, used to state the properties *)

(** The timestamps written to [lastRequestTime], in order. *)
Fixpoint stamps (l : list Event) : list Z :=
  match l with
  | [] => []
  | EvStamp t :: rest => t :: stamps rest
  | _ :: rest => stamps rest
  end.

(** The suspensions of the caller, in order. *)
Fixpoint sleeps (l : list Event) : list Z :=
  match l with
  | [] => []
  | EvSleep ms :: rest => ms :: sleeps rest
  | _ :: rest => sleeps rest
  end.

(** [s.includes(p)]. *)
Fixpoint contains (p s : string) : bool :=
  is_prefix p s ||
  match s with
  | EmptyString => false
  | String _ s' => contains p s'
  end.

Fixpoint has_char (c : ascii) (s : string) : bool :=
  match s with
  | EmptyString => false
  | String a s' => Ascii.eqb a c || has_char c s'
  end.

Definition access_error_prefix : string :=
  "Cannot access ChatGPT app. Please make sure ChatGPT is installed and properly configured. Error: ".

(** What one run of [checkChatGPTAccess] returns, logs and costs, read off
    the world. *)
Definition probe_result (w : World) : result bool :=
  match probe_exists w with
  | Throw msg => Throw (access_error_prefix ++ msg)
  | Ok isRunning =>
      if String.eqb isRunning "true" then Ok true
      else match probe_launch w with
           | Ok _ => Ok true
           | Throw _ =>
               Throw (access_error_prefix
                      ++ "Could not activate ChatGPT app. Please start it manually.")
           end
  end.

Definition probe_events (w : World) : list Event :=
  match probe_exists w with
  | Throw _ => [EvProbe]
  | Ok isRunning =>
      if String.eqb isRunning "true" then [EvProbe] else [EvProbe; EvLaunch]
  end.

Definition probe_time (w : World) : Z :=
  match probe_exists w with
  | Throw _ => Z.of_N (d_probe w)
  | Ok isRunning =>
      if String.eqb isRunning "true" then Z.of_N (d_probe w)
      else Z.of_N (d_probe w) + Z.of_N (d_launch w)
  end.

Definition after_probe (w : World) (st : State) : State :=
  mkState (lastRequestTime st) (clock st + probe_time w)
          (log st ++ probe_events w).

(** The time [waitForRateLimit] suspends its caller for in state [st]. *)
Definition wait_time (customDelay : option Z) (st : State) : option Z :=
  let elapsed := clock st - lastRequestTime st in
  let interval := delay_or_default customDelay in
  if elapsed <? interval then Some (interval - elapsed) else None.

Definition after_wait (customDelay : option Z) (st : State) : State :=
  match wait_time customDelay st with
  | Some ms =>
      mkState (lastRequestTime st) (clock st + ms) (log st ++ [EvSleep ms])
  | None => st
  end.

(** ** Sample worlds and requests *)

(** ChatGPT is running, every scripted step succeeds, the reply reads 42. *)
Definition world_ready : World :=
  mkWorld (Ok "true") (Ok "") (Ok tt) (fun _ => Ok tt) (fun _ => Ok tt)
    (Ok tt) (Ok "42") (Ok ["New chat"; "Trip plan"; "Recipes"])
    (fun _ => Throw "syntax error") 10 2000 6500 1000.

(** The process-exists query itself fails. *)
Definition world_down : World :=
  mkWorld (Throw "boom") (Ok "") (Ok tt) (fun _ => Ok tt) (fun _ => Ok tt)
    (Ok tt) (Ok "42") (Ok ["New chat"; "Trip plan"; "Recipes"])
    (fun _ => Throw "syntax error") 10 2000 6500 1000.

(** Everything works except reading the reply text area. *)
Definition world_unreadable : World :=
  mkWorld (Ok "true") (Ok "") (Ok tt) (fun _ => Ok tt) (fun _ => Ok tt)
    (Ok tt) (Throw "Can't get text area 2") (Ok ["New chat"])
    (fun _ => Throw "syntax error") 10 2000 6500 1000.

(** ChatGPT is running but the UI scripts fail at their first step. *)
Definition world_script_error : World :=
  mkWorld (Ok "true") (Ok "") (Throw "not allowed assistive access")
    (fun _ => Ok tt) (fun _ => Ok tt)
    (Ok tt) (Ok "42") (Ok ["New chat"; "Trip plan"])
    (fun _ => Throw "syntax error") 10 2000 6500 1000.

(** ChatGPT is running and its sidebar shows no conversation at all. *)
Definition world_no_chats : World :=
  mkWorld (Ok "true") (Ok "") (Ok tt) (fun _ => Ok tt) (fun _ => Ok tt)
    (Ok tt) (Ok "42") (Ok ["New chat"])
    (fun _ => Throw "syntax error") 10 2000 6500 1000.

(** The sidebar shows one conversation, whose title holds a comma. *)
Definition world_comma_title : World :=
  mkWorld (Ok "true") (Ok "") (Ok tt) (fun _ => Ok tt) (fun _ => Ok tt)
    (Ok tt) (Ok "42") (Ok ["New chat"; "Paris, France"])
    (fun _ => Throw "syntax error") 10 2000 6500 1000.

(** The two-character prompt backslash, double quote. *)
Definition prompt_backslash_quote : string :=
  String bslash (String dquote EmptyString).

Definition ask_args (prompt : string) : jsval :=
  JObj [("operation", JStr "ask"); ("prompt", JStr prompt)].

Definition ask_args_delay (prompt : string) (delay_ms : Z) : jsval :=
  JObj [("operation", JStr "ask"); ("prompt", JStr prompt);
        ("delay_ms", JNum delay_ms)].

Definition list_args : jsval := JObj [("operation", JStr "get_conversations")].

(** A previous dispatch was stamped at [t0]; the clock now reads [now]. *)
Definition state_at (t0 now : Z) : State := mkState t0 now [].

(** ** The server over time *)

(** One tool call: the world it meets, and the time since the previous call
    returned (calls are served one at a time). *)
Record Call : Type := mkCall {
  call_world : World;
  call_idle : N;
  call_name : string;
  call_args : jsval
}.

Fixpoint serve (calls : list Call) (st : State) : State :=
  match calls with
  | [] => st
  | c :: rest =>
      let st0 := mkState (lastRequestTime st)
                   (clock st + Z.of_N (call_idle c)) (log st) in
      serve rest (snd (handler (call_world c) (call_name c) (call_args c) st0))
  end.

(** ChatGPT is not running and starts when asked to. *)
Definition world_not_running : World :=
  mkWorld (Ok "false") (Ok "") (Ok tt) (fun _ => Ok tt) (fun _ => Ok tt)
    (Ok tt) (Ok "42") (Ok ["New chat"; "Trip plan"])
    (fun _ => Throw "syntax error") 10 2000 6500 1000.

(** ChatGPT is not running and cannot be started. *)
Definition world_launch_fails : World :=
  mkWorld (Ok "false") (Throw "Application can't be found.") (Ok tt)
    (fun _ => Ok tt) (fun _ => Ok tt)
    (Ok tt) (Ok "42") (Ok ["New chat"; "Trip plan"])
    (fun _ => Throw "syntax error") 10 2000 6500 1000.

(** The sidebar buttons cannot be enumerated. *)
Definition world_enum_fails : World :=
  mkWorld (Ok "true") (Ok "") (Ok tt) (fun _ => Ok tt) (fun _ => Ok tt)
    (Ok tt) (Ok "42") (Throw "Can't get group 1 of window 1")
    (fun _ => Throw "syntax error") 10 2000 6500 1000.


(** No button can be clicked. *)
Definition world_click_fails : World :=
  mkWorld (Ok "true") (Ok "") (Ok tt) (fun _ => Throw "no such button")
    (fun _ => Ok tt)
    (Ok tt) (Ok "42") (Ok ["New chat"])
    (fun _ => Throw "syntax error") 10 2000 6500 1000.

(** ** Further observations *)

Definition is_probe (e : Event) : bool :=
  match e with EvProbe => true | _ => false end.

Definition is_launch (e : Event) : bool :=
  match e with EvLaunch => true | _ => false end.

Fixpoint count_char (c : ascii) (s : string) : nat :=
  match s with
  | EmptyString => O
  | String a s' => (if Ascii.eqb a c then 1 else 0)%nat + count_char c s'
  end.

(** Every double quote of [s] stands right after a backslash; [prev] tells
    whether the character before [s] is a backslash. *)
Fixpoint quotes_guarded (prev : bool) (s : string) : bool :=
  match s with
  | EmptyString => true
  | String c s' =>
      (negb (Ascii.eqb c dquote) || prev)
      && quotes_guarded (Ascii.eqb c bslash) s'
  end.

(** Consecutive times of [l] are at least [gap] apart. *)
Fixpoint spaced (gap : Z) (l : list Z) : Prop :=
  match l with
  | [] => True
  | a :: rest =>
      match rest with
      | [] => True
      | b :: _ => a + gap <= b /\ spaced gap rest
      end
  end.

(** The text of a listing answer, lines 265-267. *)
Definition listing_text (conversations : list string) : string :=
  if Nat.ltb 0 (List.length conversations) then
    "Found " ++ string_of_nat (List.length conversations)
    ++ " conversation(s):" ++ str1 newline ++ str1 newline
    ++ join (str1 newline) conversations
  else "No conversations found in ChatGPT.".

(** The text of an ask answer, line 253. *)
Definition ask_text (response : string) : string :=
  if String.eqb response "" then "No response received from ChatGPT."
  else response.

(** The interval a call asks for, as [waitForRateLimit] will read it. *)
Definition call_delay (c : Call) : Z :=
  delay_or_default (arg_opt_number (prop (call_args c) "delay_ms")).

(** ** Basic facts *)

Lemma stamps_app (l1 l2 : list Event) :
  stamps (l1 ++ l2) = (stamps l1 ++ stamps l2)%list.
Proof.
  induction l1 as [|e l1 IH]; simpl; [reflexivity|].
  destruct e; simpl; rewrite ?IH; reflexivity.
Qed.

Lemma sleeps_app (l1 l2 : list Event) :
  sleeps (l1 ++ l2) = (sleeps l1 ++ sleeps l2)%list.
Proof.
  induction l1 as [|e l1 IH]; simpl; [reflexivity|].
  destruct e; simpl; rewrite ?IH; reflexivity.
Qed.

Lemma probe_events_quiet (w : World) :
  stamps (probe_events w) = [] /\ sleeps (probe_events w) = [].
Proof.
  unfold probe_events.
  destruct (probe_exists w) as [r|m]; [destruct (String.eqb r "true")|];
    split; reflexivity.
Qed.

Lemma probe_time_nonneg (w : World) : 0 <= probe_time w.
Proof.
  unfold probe_time.
  destruct (probe_exists w) as [r|m]; [destruct (String.eqb r "true")|]; lia.
Qed.

(** [checkChatGPTAccess] in closed form. *)
Lemma checkChatGPTAccess_run (w : World) (st : State) :
  checkChatGPTAccess w st = (probe_result w, after_probe w st).
Proof.
  unfold checkChatGPTAccess, probe_result, after_probe, probe_events,
    probe_time, try_catch, bind, run_exists_script, run_launch_script,
    emit, advance, lift, ret, throw.
  simpl.
  destruct (probe_exists w) as [r|m]; simpl; [|reflexivity].
  destruct (String.eqb r "true"); simpl; [reflexivity|].
  destruct (probe_launch w) as [r'|m']; simpl;
    rewrite <- app_assoc, Z.add_assoc; reflexivity.
Qed.

(** [waitForRateLimit] in closed form: it never throws. *)
Lemma waitForRateLimit_run (customDelay : option Z) (st : State) :
  waitForRateLimit customDelay st = (Ok tt, after_wait customDelay st).
Proof.
  unfold waitForRateLimit, after_wait, wait_time, bind, Date_now,
    read_lastRequestTime, sleep, emit, advance, ret.
  simpl.
  destruct (clock st - lastRequestTime st <? delay_or_default customDelay);
    reflexivity.
Qed.

Lemma after_wait_lastRequestTime (customDelay : option Z) (st : State) :
  lastRequestTime (after_wait customDelay st) = lastRequestTime st.
Proof. unfold after_wait. destruct (wait_time customDelay st); reflexivity. Qed.

Lemma after_wait_stamps (customDelay : option Z) (st : State) :
  stamps (log (after_wait customDelay st)) = stamps (log st).
Proof.
  unfold after_wait. destruct (wait_time customDelay st); simpl;
    [rewrite stamps_app; simpl; apply app_nil_r | reflexivity].
Qed.

Lemma after_wait_clock_mono (customDelay : option Z) (st : State) :
  clock st <= clock (after_wait customDelay st).
Proof.
  unfold after_wait, wait_time.
  destruct (Z.ltb_spec (clock st - lastRequestTime st)
              (delay_or_default customDelay)); simpl; lia.
Qed.

(** [askChatGPT] in closed form. *)
Lemma askChatGPT_run (w : World) (prompt : string)
  (conversationId : option string) (customDelay : option Z) (st : State) :
  askChatGPT w prompt conversationId customDelay st =
  match probe_result w with
  | Throw msg => (Throw msg, after_probe w st)
  | Ok _ =>
      let st2 := after_wait customDelay (after_probe w st) in
      (match ask_outcome w conversationId prompt with
       | Ok r => Ok r
       | Throw e => Throw ("Failed to get response from ChatGPT: " ++ e)
       end,
       mkState (clock st2) (clock st2 + Z.of_N (d_ask w))
         (log st2 ++ [EvStamp (clock st2);
                      EvAskScript (askScript conversationId prompt)]))
  end.
Proof.
  unfold askChatGPT, bind at 1.
  rewrite checkChatGPTAccess_run.
  destruct (probe_result w) as [b|m]; [|reflexivity].
  unfold bind at 1. rewrite waitForRateLimit_run.
  set (st2 := after_wait customDelay (after_probe w st)).
  unfold bind, Date_now, write_lastRequestTime, try_catch, run_ask_script,
    emit, advance, lift, throw.
  simpl.
  destruct (ask_outcome w conversationId prompt); simpl;
    rewrite <- app_assoc; reflexivity.
Qed.

(** [getConversations] in closed form. *)
Lemma getConversations_run (w : World) (st : State) :
  getConversations w st =
  match probe_result w with
  | Throw msg => (Throw msg, after_probe w st)
  | Ok _ =>
      let st1 := after_probe w st in
      (match list_outcome w with
       | Ok result => Ok (split ", " result)
       | Throw _ => Ok ["Error retrieving conversations"]
       end,
       mkState (lastRequestTime st1) (clock st1 + Z.of_N (d_list w))
         (log st1 ++ [EvListScript]))
  end.
Proof.
  unfold getConversations, bind at 1.
  rewrite checkChatGPTAccess_run.
  destruct (probe_result w) as [b|m]; [|reflexivity].
  unfold bind, try_catch, run_list_script, emit, advance, lift, ret.
  simpl.
  destruct (list_outcome w); reflexivity.
Qed.

(** ** The validator *)

Lemma prop_some_object (args : jsval) (k : string) (v : jsval) :
  prop args k = v -> v <> JUndefined -> exists fs, args = JObj fs.
Proof.
  intros H Hv. destruct args; simpl in H; try congruence.
  eexists; reflexivity.
Qed.

Lemma isChatGPTArgs_ask_without_prompt (args : jsval) :
  prop args "operation" = JStr "ask" ->
  truthy (prop args "prompt") = false ->
  isChatGPTArgs args = false.
Proof.
  intros Hop Hp. unfold isChatGPTArgs.
  destruct (negb (jstype_eqb (typeof args) TObject) || is_null args);
    [reflexivity|].
  rewrite Hop, Hp. reflexivity.
Qed.

Lemma isChatGPTArgs_ask_with_delay (args : jsval) (p : string) (d : Z) :
  prop args "operation" = JStr "ask" ->
  prop args "prompt" = JStr p -> p <> "" ->
  (truthy (prop args "conversation_id") = false
   \/ exists id, prop args "conversation_id" = JStr id) ->
  prop args "delay_ms" = JNum d ->
  isChatGPTArgs args = true.
Proof.
  intros Hop Hp Hne Hc Hd.
  destruct (prop_some_object _ _ _ Hop) as [fs ->]; [discriminate|].
  unfold isChatGPTArgs. rewrite Hop, Hp, Hd.
  assert (Ht : truthy (JStr p) = true).
  { simpl. destruct (String.eqb_spec p ""); [contradiction|reflexivity]. }
  rewrite Ht.
  destruct Hc as [Hc | [id Hc]]; rewrite Hc; [reflexivity|].
  simpl. rewrite andb_false_r. reflexivity.
Qed.

(** ** The rate limiter *)

Lemma delay_or_default_supplied (d : Z) :
  d <> 0 -> delay_or_default (Some d) = d.
Proof.
  intros Hd. unfold delay_or_default.
  destruct (Z.eqb_spec d 0); [contradiction|reflexivity].
Qed.

(** With the interval the code settles on, the limiter suspends for exactly
    the remainder of the interval. *)
Lemma waitForRateLimit_throttled (customDelay : option Z) (st : State) :
  clock st - lastRequestTime st < delay_or_default customDelay ->
  waitForRateLimit customDelay st =
  (Ok tt,
   let waitTime :=
     delay_or_default customDelay - (clock st - lastRequestTime st) in
   mkState (lastRequestTime st) (clock st + waitTime)
     (log st ++ [EvSleep waitTime])).
Proof.
  intros H. rewrite waitForRateLimit_run. unfold after_wait, wait_time.
  apply Z.ltb_lt in H. rewrite H. reflexivity.
Qed.

Lemma waitForRateLimit_free (customDelay : option Z) (st : State) :
  delay_or_default customDelay <= clock st - lastRequestTime st ->
  waitForRateLimit customDelay st = (Ok tt, st).
Proof.
  intros H. rewrite waitForRateLimit_run. unfold after_wait, wait_time.
  apply Z.ltb_ge in H. rewrite H. reflexivity.
Qed.

(** Thirty seconds after a dispatch, under the default interval, the wait is
    ninety seconds. *)
Lemma waitForRateLimit_default_example (t0 : Z) (l : list Event) :
  waitForRateLimit None (mkState t0 (t0 + 30000) l) =
  (Ok tt, mkState t0 (t0 + 30000 + 90000) (l ++ [EvSleep 90000])).
Proof.
  rewrite waitForRateLimit_run. unfold after_wait, wait_time.
  cbn [clock lastRequestTime log delay_or_default].
  unfold RATE_LIMIT_DELAY.
  replace (t0 + 30000 - t0) with 30000 by lia. reflexivity.
Qed.

(** Supplied and not zero, the custom interval is the one used. *)
Lemma waitForRateLimit_custom (d : Z) (st : State) :
  d <> 0 ->
  waitForRateLimit (Some d) st =
  (Ok tt,
   if clock st - lastRequestTime st <? d
   then mkState (lastRequestTime st)
          (clock st + (d - (clock st - lastRequestTime st)))
          (log st ++ [EvSleep (d - (clock st - lastRequestTime st))])
   else st).
Proof.
  intros Hd. rewrite waitForRateLimit_run.
  unfold after_wait, wait_time. rewrite (delay_or_default_supplied d Hd).
  destruct (clock st - lastRequestTime st <? d); reflexivity.
Qed.

(** C1, at the input where the code leaves the stated algorithm: a custom
    interval of zero is supplied thirty seconds after the previous dispatch.
    The stated algorithm takes the interval to be 0 and does not suspend;
    [waitForRateLimit] falls back to the default 120000 and suspends the
    caller for 90000 ms. *)
Theorem C1_zero_interval_falls_back_to_default :
  delay_or_default (Some 0) = 120000 /\
  waitForRateLimit (Some 0) (state_at 1000000 1030000) =
  (Ok tt, mkState 1000000 1120000 [EvSleep 90000]).
Proof. split; reflexivity. Qed.

(** C2, at the failing input: an ask with [delay_ms] 0, issued at the very
    instant of the previous dispatch.  Throttling is not disabled: the call
    is suspended for the full default interval (less the 10 ms the
    availability check took). *)
Theorem C2_zero_delay_still_throttled :
  sleeps (log (snd (handler world_ready "chatgpt" (ask_args_delay "hi" 0)
                      (state_at 5000000 5000000)))) = [119990]
  /\ fst (handler world_ready "chatgpt" (ask_args_delay "hi" 0)
            (state_at 5000000 5000000)) = mkEnvelope "42" false.
Proof. split; vm_compute; reflexivity. Qed.

(** ** The handler, by operation *)

Lemma isChatGPTArgs_object (args : jsval) :
  isChatGPTArgs args = true -> truthy args = true.
Proof. destruct args; simpl; intros H; try discriminate; reflexivity. Qed.

Lemma isChatGPTArgs_ask_prompt (args : jsval) :
  isChatGPTArgs args = true ->
  prop args "operation" = JStr "ask" ->
  truthy (prop args "prompt") = true.
Proof.
  intros Hv Hop. destruct (truthy (prop args "prompt")) eqn:Hp; [reflexivity|].
  rewrite (isChatGPTArgs_ask_without_prompt args Hop Hp) in Hv. discriminate.
Qed.

(** A validated ask reaches [askChatGPT]; its outcome is wrapped as is. *)
Lemma handler_ask (w : World) (args : jsval) (st : State) :
  isChatGPTArgs args = true ->
  prop args "operation" = JStr "ask" ->
  handler w "chatgpt" args st =
  match askChatGPT w (arg_string (prop args "prompt"))
          (arg_opt_string (prop args "conversation_id"))
          (arg_opt_number (prop args "delay_ms")) st with
  | (Ok response, st') =>
      (mkEnvelope (if String.eqb response ""
                   then "No response received from ChatGPT."
                   else response) false, st')
  | (Throw msg, st') => (mkEnvelope ("Error: " ++ msg) true, st')
  end.
Proof.
  intros Hv Hop.
  unfold handler, handler_body, handle_ask.
  rewrite (isChatGPTArgs_object args Hv), Hv, Hop.
  rewrite (isChatGPTArgs_ask_prompt args Hv Hop).
  cbn [negb strict_eq_str]. change (String.eqb "chatgpt" "chatgpt") with true.
  change (String.eqb "ask" "ask") with true. cbv iota.
  unfold bind, ret.
  destruct (askChatGPT w _ _ _ st) as [[response|msg] st']; reflexivity.
Qed.

(** A validated listing request reaches [getConversations]. *)
Lemma handler_get_conversations (w : World) (args : jsval) (st : State) :
  isChatGPTArgs args = true ->
  prop args "operation" = JStr "get_conversations" ->
  handler w "chatgpt" args st =
  match getConversations w st with
  | (Ok conversations, st') =>
      (mkEnvelope
         (if Nat.ltb 0 (List.length conversations) then
            "Found " ++ string_of_nat (List.length conversations)
            ++ " conversation(s):" ++ str1 newline ++ str1 newline
            ++ join (str1 newline) conversations
          else "No conversations found in ChatGPT.") false, st')
  | (Throw msg, st') => (mkEnvelope ("Error: " ++ msg) true, st')
  end.
Proof.
  intros Hv Hop.
  unfold handler, handler_body, handle_get_conversations.
  rewrite (isChatGPTArgs_object args Hv), Hv, Hop.
  cbn [negb strict_eq_str]. change (String.eqb "chatgpt" "chatgpt") with true.
  change (String.eqb "get_conversations" "ask") with false.
  change (String.eqb "get_conversations" "get_conversations") with true.
  cbv iota.
  unfold bind, ret.
  destruct (getConversations w st) as [[conversations|msg] st']; reflexivity.
Qed.

Lemma probe_result_failure (w : World) (m : string) :
  probe_result w = Throw m -> exists cause, m = access_error_prefix ++ cause.
Proof.
  unfold probe_result.
  destruct (probe_exists w) as [r|cause].
  - destruct (String.eqb r "true"); [discriminate|].
    destruct (probe_launch w); [discriminate|].
    intros H; injection H as <-. eexists; reflexivity.
  - intros H; injection H as <-. eexists; reflexivity.
Qed.

(** C3, as stated, fails where the process-exists query raises "boom": the
    ask envelope does not contain the phrase, and get_conversations returns
    an error envelope, not the sentinel list. *)
Lemma C3_counterexample :
  fst (checkChatGPTAccess world_down (state_at 0 1000))
    = Throw (access_error_prefix ++ "boom")
  /\ contains "Failed to get response from ChatGPT"
       (text (fst (handler world_down "chatgpt" (ask_args "hi")
                     (state_at 0 1000)))) = false
  /\ isError (fst (handler world_down "chatgpt" list_args (state_at 0 1000)))
     = true
  /\ fst (getConversations world_down (state_at 0 1000))
     <> Ok ["Error retrieving conversations"].
Proof.
  repeat split; try (vm_compute; reflexivity).
  vm_compute. discriminate.
Qed.

(** C3, amended.  When the availability check fails with message [m] (which
    always starts with the Cannot-access text), both ask and
    get_conversations return the error envelope with text Error: m.  When
    the check succeeds and a UI script itself fails, the two operations
    differ: ask returns an error envelope with the Failed-to-get-response
    phrase, while [getConversations] returns exactly the one-element
    sentinel list, which the handler wraps in a success envelope. *)
Theorem C3_access_failure_propagates_listing_failure_absorbed
  (w_down w_up : World) (st : State) (ask_req list_req : jsval)
  (m e e' : string) :
  isChatGPTArgs ask_req = true -> prop ask_req "operation" = JStr "ask" ->
  isChatGPTArgs list_req = true ->
  prop list_req "operation" = JStr "get_conversations" ->
  fst (checkChatGPTAccess w_down st) = Throw m ->
  fst (checkChatGPTAccess w_up st) = Ok true ->
  list_outcome w_up = Throw e ->
  ask_outcome w_up (arg_opt_string (prop ask_req "conversation_id"))
    (arg_string (prop ask_req "prompt")) = Throw e' ->
  fst (handler w_down "chatgpt" ask_req st) = mkEnvelope ("Error: " ++ m) true
  /\ fst (handler w_down "chatgpt" list_req st)
     = mkEnvelope ("Error: " ++ m) true
  /\ (exists cause, m = access_error_prefix ++ cause)
  /\ fst (handler w_up "chatgpt" ask_req st)
     = mkEnvelope ("Error: Failed to get response from ChatGPT: " ++ e') true
  /\ fst (getConversations w_up st) = Ok ["Error retrieving conversations"]
  /\ fst (handler w_up "chatgpt" list_req st)
     = mkEnvelope ("Found 1 conversation(s):" ++ str1 newline ++ str1 newline
                   ++ "Error retrieving conversations") false.
Proof.
  intros Hva Hopa Hvl Hopl Hdown Hup He He'.
  rewrite checkChatGPTAccess_run in Hdown, Hup. cbn [fst] in Hdown, Hup.
  rewrite !(handler_ask _ ask_req st Hva Hopa), !askChatGPT_run.
  rewrite !(handler_get_conversations _ list_req st Hvl Hopl).
  rewrite !getConversations_run, Hdown, Hup, He, He'.
  repeat split; try reflexivity.
  eapply probe_result_failure; eassumption.
Qed.

Lemma C3_access_failure_witness :
  fst (handler world_down "chatgpt" (ask_args "hi") (state_at 0 1000))
    = mkEnvelope ("Error: " ++ access_error_prefix ++ "boom") true
  /\ fst (handler world_down "chatgpt" list_args (state_at 0 1000))
    = mkEnvelope ("Error: " ++ access_error_prefix ++ "boom") true
  /\ (exists cause, access_error_prefix ++ "boom" = access_error_prefix ++ cause)
  /\ fst (handler world_script_error "chatgpt" (ask_args "hi") (state_at 0 1000))
     = mkEnvelope ("Error: Failed to get response from ChatGPT: "
                   ++ "not allowed assistive access") true
  /\ fst (getConversations world_script_error (state_at 0 1000))
     = Ok ["Error retrieving conversations"]
  /\ fst (handler world_script_error "chatgpt" list_args (state_at 0 1000))
     = mkEnvelope ("Found 1 conversation(s):" ++ str1 newline ++ str1 newline
                   ++ "Error retrieving conversations") false.
Proof.
  apply (C3_access_failure_propagates_listing_failure_absorbed
           world_down world_script_error (state_at 0 1000)
           (ask_args "hi") list_args (access_error_prefix ++ "boom")
           "not allowed assistive access" "not allowed assistive access");
    reflexivity.
Defined.

(** C4.  In an ask whose availability check, activation, keystrokes and
    submit all succeed but whose reply text area cannot be read, the
    operation succeeds: [askChatGPT] returns the fallback text and the
    handler answers with a success envelope holding exactly that text. *)
Theorem C4_unreadable_reply_gives_fallback
  (w : World) (st : State) (args : jsval)
  (target : option string) (typed e : string) :
  isChatGPTArgs args = true ->
  prop args "operation" = JStr "ask" ->
  fst (checkChatGPTAccess w st) = Ok true ->
  click_target (arg_opt_string (prop args "conversation_id")) = Some target ->
  interpolated (escapeQuotes (arg_string (prop args "prompt"))) = Some typed ->
  ui_activate w = Ok tt ->
  ui_keystroke w typed = Ok tt ->
  ui_keystroke_return w = Ok tt ->
  ui_reply w = Throw e ->
  fst (askChatGPT w (arg_string (prop args "prompt"))
         (arg_opt_string (prop args "conversation_id"))
         (arg_opt_number (prop args "delay_ms")) st)
    = Ok "Could not retrieve the response from ChatGPT."
  /\ fst (handler w "chatgpt" args st)
     = mkEnvelope "Could not retrieve the response from ChatGPT." false.
Proof.
  intros Hv Hop Hprobe Hclick Htext Hact Hkey Hret Hreply.
  rewrite checkChatGPTAccess_run in Hprobe. cbn [fst] in Hprobe.
  assert (Hout : ask_outcome w (arg_opt_string (prop args "conversation_id"))
                   (arg_string (prop args "prompt"))
                 = Ok "Could not retrieve the response from ChatGPT.").
  { unfold ask_outcome. rewrite Hclick, Htext.
    unfold ask_steps. rewrite Hact, Hkey, Hret, Hreply.
    cbn [rbind]. destruct target as [name|]; [|reflexivity].
    destruct (ui_click w name); reflexivity. }
  rewrite (handler_ask w args st Hv Hop), askChatGPT_run, Hprobe, Hout.
  split; reflexivity.
Qed.

Lemma C4_unreadable_reply_witness :
  fst (askChatGPT world_unreadable "hi" None None (state_at 0 1000))
    = Ok "Could not retrieve the response from ChatGPT."
  /\ fst (handler world_unreadable "chatgpt" (ask_args "hi") (state_at 0 1000))
     = mkEnvelope "Could not retrieve the response from ChatGPT." false.
Proof.
  apply (C4_unreadable_reply_gives_fallback world_unreadable (state_at 0 1000)
           (ask_args "hi") None "hi" "Can't get text area 2");
    reflexivity.
Defined.

(** C5.  A request whose operation is ask and whose prompt is missing or
    empty is answered with an error envelope and leaves the whole state as it
    was: nothing is logged (no availability probe, no script), the clock is
    not consumed and [lastRequestTime] is not written.  For the chatgpt tool
    the error is the validator's. *)
Theorem C5_ask_without_prompt_rejected_before_dispatch
  (w : World) (name : string) (args : jsval) (st : State) :
  prop args "operation" = JStr "ask" ->
  prop args "prompt" = JUndefined \/ prop args "prompt" = JStr "" ->
  isError (fst (handler w name args st)) = true
  /\ snd (handler w name args st) = st
  /\ (name = "chatgpt" ->
      text (fst (handler w name args st))
      = "Error: Invalid arguments for ChatGPT tool").
Proof.
  intros Hop Hp.
  assert (Hfalsy : truthy (prop args "prompt") = false)
    by (destruct Hp as [-> | ->]; reflexivity).
  pose proof (isChatGPTArgs_ask_without_prompt args Hop Hfalsy) as Hrej.
  destruct (prop_some_object _ _ _ Hop) as [fs ->]; [discriminate|].
  unfold handler, handler_body. cbn [truthy negb]. rewrite Hrej. cbn [negb].
  destruct (String.eqb_spec name "chatgpt") as [->|Hname].
  - repeat split; reflexivity.
  - repeat split; try reflexivity. intros ->. contradiction.
Qed.

Lemma C5_ask_without_prompt_witness :
  isError (fst (handler world_ready "chatgpt"
                  (JObj [("operation", JStr "ask"); ("prompt", JStr "")])
                  (state_at 7 1000))) = true
  /\ snd (handler world_ready "chatgpt"
            (JObj [("operation", JStr "ask"); ("prompt", JStr "")])
            (state_at 7 1000)) = state_at 7 1000
  /\ ("chatgpt" = "chatgpt" ->
      text (fst (handler world_ready "chatgpt"
                   (JObj [("operation", JStr "ask"); ("prompt", JStr "")])
                   (state_at 7 1000)))
      = "Error: Invalid arguments for ChatGPT tool").
Proof.
  apply (C5_ask_without_prompt_rejected_before_dispatch world_ready "chatgpt"
           (JObj [("operation", JStr "ask"); ("prompt", JStr "")])
           (state_at 7 1000)).
  - reflexivity.
  - right. reflexivity.
Defined.

(** ** Where the timestamp is written *)

Lemma isChatGPTArgs_operation (args : jsval) :
  isChatGPTArgs args = true ->
  prop args "operation" = JStr "ask"
  \/ prop args "operation" = JStr "get_conversations".
Proof.
  unfold isChatGPTArgs.
  destruct (negb (jstype_eqb (typeof args) TObject) || is_null args);
    [discriminate|].
  destruct (prop args "operation") as [| |b|n|s|l|fs]; cbn [includes];
    rewrite ?orb_true_r; try discriminate.
  cbn [existsb].
  destruct (String.eqb_spec s "ask") as [->|_]; [left; reflexivity|].
  destruct (String.eqb_spec s "get_conversations") as [->|_];
    [right; reflexivity|].
  rewrite orb_true_r. discriminate.
Qed.

(** Every tool call either leaves the state alone, or runs [askChatGPT]
    once, or runs [getConversations] once. *)
Lemma handler_state (w : World) (name : string) (args : jsval) (st : State) :
  snd (handler w name args st) = st
  \/ (exists prompt conversationId customDelay,
        snd (handler w name args st)
        = snd (askChatGPT w prompt conversationId customDelay st))
  \/ snd (handler w name args st) = snd (getConversations w st).
Proof.
  destruct (String.eqb_spec name "chatgpt") as [->|Hname].
  - destruct (isChatGPTArgs args) eqn:Hv.
    + destruct (isChatGPTArgs_operation args Hv) as [Hop|Hop].
      * right; left.
        exists (arg_string (prop args "prompt")),
          (arg_opt_string (prop args "conversation_id")),
          (arg_opt_number (prop args "delay_ms")).
        rewrite (handler_ask w args st Hv Hop).
        destruct (askChatGPT w _ _ _ st) as [[r|m] st']; reflexivity.
      * right; right.
        rewrite (handler_get_conversations w args st Hv Hop).
        destruct (getConversations w st) as [[r|m] st']; reflexivity.
    + left. unfold handler, handler_body. rewrite Hv.
      destruct (truthy args); reflexivity.
  - left. unfold handler, handler_body.
    apply String.eqb_neq in Hname. rewrite Hname.
    destruct (truthy args); reflexivity.
Qed.

(** C6.  In an ask whose availability check passed, [lastRequestTime] is
    written exactly once: the write is the event right after the rate-limit
    wait and right before the ask script is handed to the adapter, and the
    value written is the clock at the end of the wait, whatever time the
    adapter then takes.  Nothing else writes it: an ask stopped by the
    availability check, and every listing, leave it as it was. *)
Theorem C6_timestamp_written_once_before_adapter
  (w : World) (prompt : string) (conversationId : option string)
  (customDelay : option Z) (st : State) :
  let st1 := snd (checkChatGPTAccess w st) in
  let st2 := snd (waitForRateLimit customDelay st1) in
  let st' := snd (askChatGPT w prompt conversationId customDelay st) in
  match fst (checkChatGPTAccess w st) with
  | Ok _ =>
      log st' = (log st2 ++ [EvStamp (clock st2);
                             EvAskScript (askScript conversationId prompt)])%list
      /\ stamps (log st') = (stamps (log st) ++ [clock st2])%list
      /\ lastRequestTime st' = clock st2
      /\ clock st' = clock st2 + Z.of_N (d_ask w)
  | Throw _ =>
      st' = st1
      /\ stamps (log st') = stamps (log st)
      /\ lastRequestTime st' = lastRequestTime st
  end
  /\ stamps (log (snd (getConversations w st))) = stamps (log st)
  /\ lastRequestTime (snd (getConversations w st)) = lastRequestTime st.
Proof.
  cbv zeta.
  rewrite askChatGPT_run, getConversations_run, checkChatGPTAccess_run,
    waitForRateLimit_run.
  cbn [fst snd].
  destruct (probe_events_quiet w) as [Hquiet _].
  assert (Hprobe : stamps (log (after_probe w st)) = stamps (log st)).
  { unfold after_probe. cbn [log]. rewrite stamps_app, Hquiet.
    apply app_nil_r. }
  destruct (probe_result w) as [b|m]; cbn [fst snd log lastRequestTime clock].
  - repeat split.
    + rewrite stamps_app, after_wait_stamps, Hprobe. reflexivity.
    + rewrite stamps_app, Hprobe. apply app_nil_r.
  - repeat split; assumption.
Qed.

(** The stamp never runs ahead of the clock. *)
Lemma handler_stamp_not_in_future
  (w : World) (name : string) (args : jsval) (st : State) :
  lastRequestTime st <= clock st ->
  lastRequestTime (snd (handler w name args st))
  <= clock (snd (handler w name args st)).
Proof.
  intros Hinv.
  pose proof (probe_time_nonneg w) as Hp.
  destruct (handler_state w name args st)
    as [-> | [(p & cid & cd & ->) | ->]]; [assumption| |].
  - rewrite askChatGPT_run.
    destruct (probe_result w); cbn [snd lastRequestTime clock after_probe]; lia.
  - rewrite getConversations_run.
    destruct (probe_result w); cbn [snd lastRequestTime clock after_probe]; lia.
Qed.

(** From start-up on, whatever calls are served, [lastRequestTime] is a
    time that has been reached. *)
Lemma serve_stamp_not_in_future (calls : list Call) (st : State) :
  lastRequestTime st <= clock st ->
  lastRequestTime (serve calls st) <= clock (serve calls st).
Proof.
  revert st. induction calls as [|c rest IH]; intros st Hinv; [exact Hinv|].
  cbn [serve]. apply IH, handler_stamp_not_in_future.
  cbn [lastRequestTime clock]. lia.
Qed.

Lemma serve_from_start (calls : list Call) (now : Z) :
  0 <= now ->
  lastRequestTime (serve calls (initial now))
  <= clock (serve calls (initial now)).
Proof. intros H. apply serve_stamp_not_in_future. exact H. Qed.

(** C9.  An ask whose [delay_ms] is a negative number passes validation,
    and the limiter does not suspend it however recent the previous dispatch
    is: with the stamp not ahead of the clock, the elapsed time is not below
    a negative interval. *)
Theorem C9_negative_delay_accepted_and_never_waits
  (w : World) (args : jsval) (p : string) (d : Z) (st : State) :
  prop args "operation" = JStr "ask" ->
  prop args "prompt" = JStr p -> p <> "" ->
  (truthy (prop args "conversation_id") = false
   \/ exists id, prop args "conversation_id" = JStr id) ->
  prop args "delay_ms" = JNum d -> d < 0 ->
  lastRequestTime st <= clock st ->
  isChatGPTArgs args = true
  /\ waitForRateLimit (Some d) st = (Ok tt, st)
  /\ sleeps (log (snd (handler w "chatgpt" args st))) = sleeps (log st).
Proof.
  intros Hop Hp Hne Hc Hd Hneg Hinv.
  pose proof (isChatGPTArgs_ask_with_delay args p d Hop Hp Hne Hc Hd) as Hv.
  assert (Hdelay : delay_or_default (Some d) = d)
    by (apply delay_or_default_supplied; lia).
  split; [exact Hv|]. split.
  - apply waitForRateLimit_free. rewrite Hdelay. lia.
  - rewrite (handler_ask w args st Hv Hop), askChatGPT_run, Hd.
    cbn [arg_opt_number].
    destruct (probe_events_quiet w) as [_ Hquiet].
    pose proof (probe_time_nonneg w) as Hpt.
    assert (Hfree : after_wait (Some d) (after_probe w st) = after_probe w st).
    { unfold after_wait, wait_time. rewrite Hdelay.
      cbn [after_probe clock lastRequestTime].
      destruct (Z.ltb_spec (clock st + probe_time w - lastRequestTime st) d);
        [lia|reflexivity]. }
    destruct (probe_result w) as [b|m].
    + cbv zeta. rewrite Hfree.
      destruct (ask_outcome w _ _); cbn [snd log after_probe];
        rewrite !sleeps_app, Hquiet; cbn [sleeps]; rewrite !app_nil_r;
        reflexivity.
    + cbn [snd log after_probe]. rewrite sleeps_app, Hquiet.
      apply app_nil_r.
Qed.

Lemma C9_negative_delay_witness :
  isChatGPTArgs (ask_args_delay "hi" (-5)) = true
  /\ waitForRateLimit (Some (-5)) (state_at 1000 1000)
     = (Ok tt, state_at 1000 1000)
  /\ sleeps (log (snd (handler world_ready "chatgpt"
                         (ask_args_delay "hi" (-5)) (state_at 1000 1000))))
     = sleeps (log (state_at 1000 1000)).
Proof.
  apply (C9_negative_delay_accepted_and_never_waits world_ready
           (ask_args_delay "hi" (-5)) "hi" (-5) (state_at 1000 1000)).
  - reflexivity.
  - reflexivity.
  - discriminate.
  - left. reflexivity.
  - reflexivity.
  - lia.
  - simpl. lia.
Defined.

(** C10.  When the ask script raises after the wait, the error is reported
    but [lastRequestTime] keeps the value written before the script ran.
    The state left behind is the one a successful run of the same length
    leaves, so any later [waitForRateLimit] computes the same wait. *)
Theorem C10_failed_script_keeps_timestamp
  (w w_ok : World) (prompt : string) (conversationId : option string)
  (customDelay : option Z) (st : State) (e reply : string) :
  fst (checkChatGPTAccess w st) = Ok true ->
  ask_outcome w conversationId prompt = Throw e ->
  ask_outcome w_ok conversationId prompt = Ok reply ->
  probe_exists w_ok = probe_exists w ->
  probe_launch w_ok = probe_launch w ->
  d_probe w_ok = d_probe w -> d_launch w_ok = d_launch w ->
  d_ask w_ok = d_ask w ->
  let st2 := snd (waitForRateLimit customDelay (snd (checkChatGPTAccess w st))) in
  let failed := askChatGPT w prompt conversationId customDelay st in
  let succeeded := askChatGPT w_ok prompt conversationId customDelay st in
  fst failed = Throw ("Failed to get response from ChatGPT: " ++ e)
  /\ lastRequestTime (snd failed) = clock st2
  /\ fst succeeded = Ok reply
  /\ snd failed = snd succeeded
  /\ (forall nextDelay,
        waitForRateLimit nextDelay (snd failed)
        = waitForRateLimit nextDelay (snd succeeded)).
Proof.
  intros Hprobe Hfail Hok Hpe Hpl Hdp Hdl Hda. cbv zeta.
  rewrite checkChatGPTAccess_run in Hprobe. cbn [fst] in Hprobe.
  assert (Hres : probe_result w_ok = probe_result w)
    by (unfold probe_result; rewrite Hpe, Hpl; reflexivity).
  assert (Hst : after_probe w_ok st = after_probe w st).
  { unfold after_probe, probe_time, probe_events.
    rewrite Hpe, Hdp, Hdl. reflexivity. }
  assert (Hsame : snd (askChatGPT w prompt conversationId customDelay st)
                  = snd (askChatGPT w_ok prompt conversationId customDelay st)).
  { rewrite !askChatGPT_run, Hres, Hprobe, Hst, Hda. reflexivity. }
  repeat split.
  - rewrite askChatGPT_run, Hprobe, Hfail. reflexivity.
  - rewrite askChatGPT_run, Hprobe, checkChatGPTAccess_run,
      waitForRateLimit_run. reflexivity.
  - rewrite askChatGPT_run, Hres, Hprobe, Hok. reflexivity.
  - exact Hsame.
  - intros nextDelay. rewrite Hsame. reflexivity.
Qed.

Lemma C10_failed_script_witness :
  fst (askChatGPT world_script_error "hi" None None (state_at 0 1000))
    = Throw ("Failed to get response from ChatGPT: "
             ++ "not allowed assistive access")
  /\ lastRequestTime
       (snd (askChatGPT world_script_error "hi" None None (state_at 0 1000)))
     = clock (snd (waitForRateLimit None
                     (snd (checkChatGPTAccess world_script_error
                             (state_at 0 1000)))))
  /\ fst (askChatGPT world_ready "hi" None None (state_at 0 1000)) = Ok "42"
  /\ snd (askChatGPT world_script_error "hi" None None (state_at 0 1000))
     = snd (askChatGPT world_ready "hi" None None (state_at 0 1000))
  /\ (forall nextDelay,
        waitForRateLimit nextDelay
          (snd (askChatGPT world_script_error "hi" None None (state_at 0 1000)))
        = waitForRateLimit nextDelay
            (snd (askChatGPT world_ready "hi" None None (state_at 0 1000)))).
Proof.
  apply (C10_failed_script_keeps_timestamp world_script_error world_ready
           "hi" None None (state_at 0 1000)
           "not allowed assistive access" "42");
    reflexivity.
Defined.

(** ** Quoting of the prompt *)

(** A prompt without backslashes is typed as it is: the spliced literal
    closes at the template's quote and denotes the prompt. *)
Lemma scan_escapeQuotes (p : string) :
  has_char bslash p = false ->
  scan_literal false (escapeQuotes p ++ str1 dquote)
  = Some (escapeQuotes p, EmptyString).
Proof.
  induction p as [|c p IH]; intros H; [reflexivity|].
  cbn [has_char] in H. apply orb_false_iff in H as [Hc Hp].
  cbn [escapeQuotes].
  destruct (Ascii.eqb c dquote) eqn:Hq.
  - cbn [String.append scan_literal].
    change (Ascii.eqb bslash dquote) with false.
    change (Ascii.eqb bslash bslash) with true. cbv iota.
    rewrite (IH Hp). reflexivity.
  - cbn [String.append scan_literal]. rewrite Hq, Hc, (IH Hp). reflexivity.
Qed.

Lemma decode_escapeQuotes (p : string) :
  has_char bslash p = false ->
  decode_literal false (escapeQuotes p) = Some p.
Proof.
  induction p as [|c p IH]; intros H; [reflexivity|].
  cbn [has_char] in H. apply orb_false_iff in H as [Hc Hp].
  cbn [escapeQuotes].
  destruct (Ascii.eqb_spec c dquote) as [->|Hq].
  - cbn [decode_literal].
    change (Ascii.eqb bslash bslash) with true. cbv iota.
    change (escape_char dquote) with (Some dquote).
    rewrite (IH Hp). reflexivity.
  - cbn [decode_literal]. rewrite Hc, (IH Hp). reflexivity.
Qed.

Lemma interpolated_escapeQuotes (p : string) :
  has_char bslash p = false ->
  interpolated (escapeQuotes p) = Some p.
Proof.
  intros H. unfold interpolated.
  rewrite (scan_escapeQuotes p H). apply decode_escapeQuotes, H.
Qed.

(** C7, at the failing input: the prompt backslash, double quote.  The
    replace turns it into backslash, backslash, double quote; AppleScript
    reads the two backslashes as one escaped backslash, so the prompt's own
    quote closes the literal and the template's closing quote is left over.
    The script handed to the adapter is then not the intended one. *)
Theorem C7_backslash_quote_closes_literal_early :
  escapeQuotes prompt_backslash_quote
    = String bslash (String bslash (String dquote EmptyString))
  /\ scan_literal false (escapeQuotes prompt_backslash_quote ++ str1 dquote)
     = Some (String bslash (String bslash EmptyString), str1 dquote)
  /\ interpolated (escapeQuotes prompt_backslash_quote) = None
  /\ forall w : World,
       ask_outcome w None prompt_backslash_quote
       = ui_other w (askScript None prompt_backslash_quote).
Proof. repeat split. Qed.

(** ** Listing *)


Lemma append_empty_r (s : string) : s ++ "" = s.
Proof. induction s as [|c s IH]; cbn; [|rewrite IH]; reflexivity. Qed.

Lemma append_assoc (a b c : string) : (a ++ b) ++ c = a ++ (b ++ c).
Proof. induction a as [|x a IH]; cbn; [|rewrite IH]; reflexivity. Qed.

Section SplitJoin.

(** Titles that do not hold the separator survive print-then-split. *)
Local Abbreviation sep := (", ").






End SplitJoin.


(** C8, at the failing input: a sidebar that shows only the New chat
    button.  The script collects the empty list, osascript prints it as the
    empty text, and splitting the empty text yields one empty name: the
    result is never empty, and the handler reports one conversation.  The
    same parse cuts a title holding comma, space in two. *)
Theorem C8_empty_sidebar_lists_one_empty_name :
  list_outcome world_no_chats = Ok ""
  /\ fst (getConversations world_no_chats (state_at 0 1000)) = Ok [""]
  /\ text (fst (handler world_no_chats "chatgpt" list_args (state_at 0 1000)))
     = "Found 1 conversation(s):" ++ str1 newline ++ str1 newline
  /\ fst (getConversations world_comma_title (state_at 0 1000))
     = Ok ["Paris"; "France"].
Proof. repeat split. Qed.

(** ** More on the validator *)

Lemma string_or_falsy (v : jsval) :
  truthy v && negb (jstype_eqb (typeof v) TString) = false
  <-> (truthy v = false \/ exists s, v = JStr s).
Proof.
  split.
  - destruct v as [| |b|n|s|l|fs]; cbn; intros H;
      try (left; reflexivity); try discriminate.
    + destruct b; [discriminate|left; reflexivity].
    + destruct (n =? 0); [left; reflexivity|discriminate].
    + right. eexists; reflexivity.
  - intros [H | [s ->]]; [rewrite H; reflexivity|].
    cbn. apply andb_false_r.
Qed.

Lemma number_or_undefined (v : jsval) :
  negb (is_undefined v) && negb (jstype_eqb (typeof v) TNumber) = false
  <-> (v = JUndefined \/ exists d, v = JNum d).
Proof.
  split.
  - destruct v; cbn; intros H; try discriminate;
      [left; reflexivity | right; eexists; reflexivity].
  - intros [-> | [d ->]]; reflexivity.
Qed.

(** [isChatGPTArgs] accepts exactly the objects whose operation is ask with
    a non-empty string prompt, or get_conversations with a prompt that is a
    string or falsy, and in which [conversation_id] is a string or falsy and
    [delay_ms] is a number or absent.  Arrays, [null] and primitives are
    refused; so is a [delay_ms] of [null]; falsy values of other types
    (0, [false], [null]) pass as [prompt] of a listing and as
    [conversation_id]. *)
Theorem isChatGPTArgs_exact (args : jsval) :
  isChatGPTArgs args = true <->
  (exists fs, args = JObj fs)
  /\ ((prop args "operation" = JStr "ask"
       /\ exists p, prop args "prompt" = JStr p /\ p <> "")
      \/ (prop args "operation" = JStr "get_conversations"
          /\ (truthy (prop args "prompt") = false
              \/ exists p, prop args "prompt" = JStr p)))
  /\ (truthy (prop args "conversation_id") = false
      \/ exists id, prop args "conversation_id" = JStr id)
  /\ (prop args "delay_ms" = JUndefined
      \/ exists d, prop args "delay_ms" = JNum d).
Proof.
  split.
  - intros Hv.
    destruct (isChatGPTArgs_operation args Hv) as [Hop|Hop];
      destruct (prop_some_object _ _ _ Hop) as [fs Hobj]; try discriminate;
      (split; [exists fs; exact Hobj|]);
      revert Hv; unfold isChatGPTArgs; rewrite Hop; subst args;
      cbn [typeof jstype_eqb negb is_null orb truthy includes existsb
             strict_eq_str];
      change (String.eqb "ask" "") with false;
      change (String.eqb "ask" "ask") with true;
      change (String.eqb "get_conversations" "") with false;
      change (String.eqb "get_conversations" "ask") with false;
      change (String.eqb "get_conversations" "get_conversations") with true;
      cbn [negb orb andb];
      set (prompt := prop (JObj fs) "prompt");
      set (cid := prop (JObj fs) "conversation_id");
      set (delay := prop (JObj fs) "delay_ms").
    + destruct (truthy prompt) eqn:Htp; cbn [negb andb]; [|discriminate].
      destruct (negb (jstype_eqb (typeof prompt) TString)) eqn:Hsp;
        [discriminate|].
      destruct (truthy cid && negb (jstype_eqb (typeof cid) TString)) eqn:Hc;
        [discriminate|].
      destruct (negb (is_undefined delay)
                && negb (jstype_eqb (typeof delay) TNumber)) eqn:Hd;
        [discriminate|].
      intros _. repeat split.
      * left. split; [reflexivity|].
        destruct prompt as [| |b|n|p|l|fs']; try discriminate.
        exists p. split; [reflexivity|].
        intros ->. discriminate.
      * apply string_or_falsy, Hc.
      * apply number_or_undefined, Hd.
    + destruct (truthy prompt && negb (jstype_eqb (typeof prompt) TString))
        eqn:Hp; [discriminate|].
      destruct (truthy cid && negb (jstype_eqb (typeof cid) TString)) eqn:Hc;
        [discriminate|].
      destruct (negb (is_undefined delay)
                && negb (jstype_eqb (typeof delay) TNumber)) eqn:Hd;
        [discriminate|].
      intros _. repeat split.
      * right. split; [reflexivity|]. apply string_or_falsy, Hp.
      * apply string_or_falsy, Hc.
      * apply number_or_undefined, Hd.
  - intros ([fs ->] & Hop & Hc & Hd).
    apply string_or_falsy in Hc. apply number_or_undefined in Hd.
    unfold isChatGPTArgs.
    cbn [typeof jstype_eqb negb is_null orb].
    destruct Hop as [[Hop (p & Hp & Hne)] | [Hop Hp]]; rewrite Hop.
    + rewrite Hp, Hc, Hd.
      assert (Ht : truthy (JStr p) = true).
      { cbn. destruct (String.eqb_spec p ""); [contradiction|reflexivity]. }
      rewrite Ht. reflexivity.
    + apply string_or_falsy in Hp. rewrite Hp, Hc, Hd. reflexivity.
Qed.

(** ** The handler, case by case *)

Lemma handler_cases (w : World) (name : string) (args : jsval) (st : State) :
  (truthy args = false
   /\ handler w name args st
      = (mkEnvelope "Error: No arguments provided" true, st))
  \/ (truthy args = true /\ name <> "chatgpt"
      /\ handler w name args st
         = (mkEnvelope ("Unknown tool: " ++ name) true, st))
  \/ (truthy args = true /\ name = "chatgpt" /\ isChatGPTArgs args = false
      /\ handler w name args st
         = (mkEnvelope "Error: Invalid arguments for ChatGPT tool" true, st))
  \/ (name = "chatgpt" /\ isChatGPTArgs args = true
      /\ prop args "operation" = JStr "ask"
      /\ handler w name args st
         = match askChatGPT w (arg_string (prop args "prompt"))
                   (arg_opt_string (prop args "conversation_id"))
                   (arg_opt_number (prop args "delay_ms")) st with
           | (Ok response, st') => (mkEnvelope (ask_text response) false, st')
           | (Throw msg, st') => (mkEnvelope ("Error: " ++ msg) true, st')
           end)
  \/ (name = "chatgpt" /\ isChatGPTArgs args = true
      /\ prop args "operation" = JStr "get_conversations"
      /\ handler w name args st
         = match getConversations w st with
           | (Ok conversations, st') =>
               (mkEnvelope (listing_text conversations) false, st')
           | (Throw msg, st') => (mkEnvelope ("Error: " ++ msg) true, st')
           end).
Proof.
  destruct (truthy args) eqn:Ht.
  2:{ left. split; [reflexivity|].
      unfold handler, handler_body. rewrite Ht. reflexivity. }
  right.
  destruct (String.eqb_spec name "chatgpt") as [->|Hname].
  2:{ left. repeat split; [exact Hname|].
      unfold handler, handler_body. rewrite Ht.
      apply String.eqb_neq in Hname. rewrite Hname. reflexivity. }
  right.
  destruct (isChatGPTArgs args) eqn:Hv.
  2:{ left. repeat split.
      unfold handler, handler_body. rewrite Ht, Hv. reflexivity. }
  right.
  destruct (isChatGPTArgs_operation args Hv) as [Hop|Hop]; [left|right];
    repeat split; try assumption.
  - apply handler_ask; assumption.
  - apply handler_get_conversations; assumption.
Qed.

(** A call that names another tool, carries no arguments or fails
    validation is answered with an error envelope and changes nothing: no
    probe, no script, no wait, no stamp.  The missing-arguments test comes
    first, so it wins over an unknown tool name. *)
Theorem rejected_call_has_no_effect
  (w : World) (name : string) (args : jsval) (st : State) :
  truthy args = false \/ name <> "chatgpt" \/ isChatGPTArgs args = false ->
  snd (handler w name args st) = st
  /\ isError (fst (handler w name args st)) = true
  /\ text (fst (handler w name args st))
     = (if negb (truthy args) then "Error: No arguments provided"
        else if String.eqb name "chatgpt"
             then "Error: Invalid arguments for ChatGPT tool"
             else "Unknown tool: " ++ name).
Proof.
  intros H.
  destruct (handler_cases w name args st)
    as [[Ht E] | [(Ht & Hn & E) | [(Ht & Hn & Hv & E) | [C | C]]]].
  - rewrite E, Ht. repeat split.
  - rewrite E, Ht. apply String.eqb_neq in Hn. rewrite Hn. repeat split.
  - rewrite E, Ht. subst name. repeat split.
  - destruct C as (Hn & Hv & Hop & _).
    pose proof (isChatGPTArgs_object args Hv) as Ht.
    destruct H as [H | [H | H]]; congruence.
  - destruct C as (Hn & Hv & Hop & _).
    pose proof (isChatGPTArgs_object args Hv) as Ht.
    destruct H as [H | [H | H]]; congruence.
Qed.

Lemma rejected_call_witness :
  snd (handler world_ready "weather" JUndefined (state_at 7 1000))
    = state_at 7 1000
  /\ isError (fst (handler world_ready "weather" JUndefined (state_at 7 1000)))
     = true
  /\ text (fst (handler world_ready "weather" JUndefined (state_at 7 1000)))
     = (if negb (truthy JUndefined) then "Error: No arguments provided"
        else if String.eqb "weather" "chatgpt"
             then "Error: Invalid arguments for ChatGPT tool"
             else "Unknown tool: " ++ "weather").
Proof.
  apply (rejected_call_has_no_effect world_ready "weather" JUndefined
           (state_at 7 1000)).
  left. reflexivity.
Defined.

Lemma split_aux_nonempty (sep : string) (skip : nat) (cur s : string) :
  split_aux sep skip cur s <> [].
Proof.
  revert skip cur. induction s as [|c s IH]; intros skip cur.
  - discriminate.
  - cbn [split_aux]. destruct skip as [|k]; [|apply IH].
    destruct (is_prefix sep (String c s)); [discriminate|apply IH].
Qed.

Lemma getConversations_nonempty (w : World) (st : State) :
  fst (getConversations w st) <> Ok [].
Proof.
  rewrite getConversations_run.
  destruct (probe_result w); cbn [fst]; [|discriminate].
  destruct (list_outcome w) as [r|e]; [|discriminate].
  intros H. injection H as H. exact (split_aux_nonempty _ _ _ _ H).
Qed.

(** The answer of a tool call never has an empty text, whatever the call
    and whatever the outside world does. *)
Theorem response_text_never_empty
  (w : World) (name : string) (args : jsval) (st : State) :
  text (fst (handler w name args st)) <> "".
Proof.
  destruct (handler_cases w name args st)
    as [[_ E] | [(_ & _ & E) | [(_ & _ & _ & E) | [C | C]]]];
    try (rewrite E; discriminate).
  - destruct C as (_ & _ & _ & E). rewrite E.
    destruct (askChatGPT w _ _ _ st) as [[r|m] st']; cbn [fst text];
      [|discriminate].
    unfold ask_text. destruct (String.eqb_spec r ""); [discriminate|assumption].
  - destruct C as (_ & _ & _ & E). rewrite E.
    destruct (getConversations w st) as [[l|m] st']; cbn [fst text];
      [|discriminate].
    unfold listing_text. destruct (Nat.ltb 0 (List.length l)); discriminate.
Qed.

(** Every error envelope carries one of five texts.  In particular the
    errors of line 241 (prompt required) and line 274 (unknown operation)
    are never produced: validation has already excluded their cases. *)
Theorem error_envelope_texts
  (w : World) (name : string) (args : jsval) (st : State) :
  isError (fst (handler w name args st)) = true ->
  let t := text (fst (handler w name args st)) in
  t = "Error: No arguments provided"
  \/ t = "Unknown tool: " ++ name
  \/ t = "Error: Invalid arguments for ChatGPT tool"
  \/ (exists cause, t = "Error: " ++ access_error_prefix ++ cause)
  \/ (exists e, t = "Error: Failed to get response from ChatGPT: " ++ e).
Proof.
  cbv zeta.
  destruct (handler_cases w name args st)
    as [[_ E] | [(_ & _ & E) | [(_ & _ & _ & E) | [C | C]]]].
  - rewrite E. intros _. left. reflexivity.
  - rewrite E. intros _. right; left. reflexivity.
  - rewrite E. intros _. right; right; left. reflexivity.
  - destruct C as (_ & _ & _ & E). rewrite E, askChatGPT_run.
    destruct (probe_result w) as [b|m] eqn:Hp.
    + cbv zeta. destruct (ask_outcome w _ _) as [r|e]; cbn [fst isError text];
        [discriminate|].
      intros _. right; right; right; right. exists e. reflexivity.
    + cbn [fst isError text]. intros _. right; right; right; left.
      destruct (probe_result_failure w m Hp) as [cause ->].
      exists cause. reflexivity.
  - destruct C as (_ & _ & _ & E). rewrite E, getConversations_run.
    destruct (probe_result w) as [b|m] eqn:Hp.
    + cbv zeta. destruct (list_outcome w); cbn [fst isError]; discriminate.
    + cbn [fst isError text]. intros _. right; right; right; left.
      destruct (probe_result_failure w m Hp) as [cause ->].
      exists cause. reflexivity.
Qed.

Lemma error_envelope_texts_witness :
  let t := text (fst (handler world_script_error "chatgpt" (ask_args "hi")
                        (state_at 0 1000))) in
  t = "Error: No arguments provided"
  \/ t = "Unknown tool: " ++ "chatgpt"
  \/ t = "Error: Invalid arguments for ChatGPT tool"
  \/ (exists cause, t = "Error: " ++ access_error_prefix ++ cause)
  \/ (exists e, t = "Error: Failed to get response from ChatGPT: " ++ e).
Proof.
  apply (error_envelope_texts world_script_error "chatgpt" (ask_args "hi")
           (state_at 0 1000)).
  reflexivity.
Defined.

(** ** More on asking *)



(** A validated ask is answered with a success envelope exactly when the
    availability check passes and the ask script returns; the state of the
    reply area plays no part (see C4). *)
Theorem ask_succeeds_iff
  (w : World) (st : State) (args : jsval) :
  isChatGPTArgs args = true ->
  prop args "operation" = JStr "ask" ->
  isError (fst (handler w "chatgpt" args st)) = false
  <-> (fst (checkChatGPTAccess w st) = Ok true
       /\ exists reply,
            ask_outcome w (arg_opt_string (prop args "conversation_id"))
              (arg_string (prop args "prompt")) = Ok reply).
Proof.
  intros Hv Hop.
  rewrite (handler_ask w args st Hv Hop), askChatGPT_run,
    checkChatGPTAccess_run.
  cbn [fst].
  destruct (probe_result w) as [b|m] eqn:Hp.
  - cbv zeta.
    destruct (ask_outcome w _ _) as [r|e]; cbn [fst isError]; split.
    + intros _. split; [|exists r; reflexivity].
      unfold probe_result in Hp.
      destruct (probe_exists w) as [out|c]; [|discriminate].
      destruct (String.eqb out "true"); [symmetry; exact Hp|].
      destruct (probe_launch w); [symmetry; exact Hp|discriminate].
    + reflexivity.
    + discriminate.
    + intros [_ [r Hr]]. discriminate.
  - cbn [fst isError]. split; [discriminate|]. intros [H _]. discriminate.
Qed.

Lemma ask_succeeds_iff_witness :
  isError (fst (handler world_ready "chatgpt" (ask_args "hi")
                  (state_at 0 1000))) = false
  <-> (fst (checkChatGPTAccess world_ready (state_at 0 1000)) = Ok true
       /\ exists reply,
            ask_outcome world_ready
              (arg_opt_string (prop (ask_args "hi") "conversation_id"))
              (arg_string (prop (ask_args "hi") "prompt")) = Ok reply).
Proof.
  apply (ask_succeeds_iff world_ready (state_at 0 1000) (ask_args "hi"));
    reflexivity.
Defined.

(** ** More on listing *)

(** Listing is not rate limited and does not count as a dispatch: whatever
    [lastRequestTime] is, a listing request never suspends the caller,
    leaves [lastRequestTime] alone, and costs the availability check plus,
    when that passes, one run of the listing script. *)
Theorem listing_is_not_throttled
  (w : World) (st : State) (args : jsval) :
  isChatGPTArgs args = true ->
  prop args "operation" = JStr "get_conversations" ->
  let st' := snd (handler w "chatgpt" args st) in
  let st1 := snd (checkChatGPTAccess w st) in
  sleeps (log st') = sleeps (log st)
  /\ stamps (log st') = stamps (log st)
  /\ lastRequestTime st' = lastRequestTime st
  /\ match fst (checkChatGPTAccess w st) with
     | Ok _ => clock st' = clock st1 + Z.of_N (d_list w)
               /\ log st' = (log st1 ++ [EvListScript])%list
     | Throw _ => st' = st1
     end.
Proof.
  intros Hv Hop. cbv zeta.
  rewrite (handler_get_conversations w args st Hv Hop).
  rewrite getConversations_run, checkChatGPTAccess_run. cbn [fst snd].
  destruct (probe_events_quiet w) as [Hs Hq].
  destruct (probe_result w) as [b|m].
  - cbv zeta. destruct (list_outcome w);
      cbn [snd log lastRequestTime clock after_probe];
      rewrite !sleeps_app, !stamps_app, Hs, Hq; cbn [sleeps stamps];
      rewrite !app_nil_r; repeat split.
  - cbn [snd log lastRequestTime clock after_probe].
    rewrite !sleeps_app, !stamps_app, Hs, Hq, !app_nil_r. repeat split.
Qed.

Lemma listing_is_not_throttled_witness :
  let st' := snd (handler world_ready "chatgpt" list_args
                    (state_at 5000000 5000000)) in
  let st1 := snd (checkChatGPTAccess world_ready (state_at 5000000 5000000)) in
  sleeps (log st') = sleeps (log (state_at 5000000 5000000))
  /\ stamps (log st') = stamps (log (state_at 5000000 5000000))
  /\ lastRequestTime st' = lastRequestTime (state_at 5000000 5000000)
  /\ match fst (checkChatGPTAccess world_ready (state_at 5000000 5000000)) with
     | Ok _ => clock st' = clock st1 + Z.of_N (d_list world_ready)
               /\ log st' = (log st1 ++ [EvListScript])%list
     | Throw _ => st' = st1
     end.
Proof.
  apply (listing_is_not_throttled world_ready (state_at 5000000 5000000)
           list_args);
    reflexivity.
Defined.

(** [getConversations] never returns the empty list, so a listing request
    is never answered with the No-conversations text of line 267: that
    branch cannot run. *)
Theorem listing_never_empty
  (w : World) (st : State) (args : jsval) :
  isChatGPTArgs args = true ->
  prop args "operation" = JStr "get_conversations" ->
  fst (getConversations w st) <> Ok []
  /\ text (fst (handler w "chatgpt" args st))
     <> "No conversations found in ChatGPT.".
Proof.
  intros Hv Hop. split; [apply getConversations_nonempty|].
  rewrite (handler_get_conversations w args st Hv Hop).
  pose proof (getConversations_nonempty w st) as Hne.
  destruct (getConversations w st) as [[l|m] st']; cbn [fst text] in *;
    [|discriminate].
  destruct l as [|x l]; [contradiction|]. discriminate.
Qed.

Lemma listing_never_empty_witness :
  fst (getConversations world_no_chats (state_at 0 1000)) <> Ok []
  /\ text (fst (handler world_no_chats "chatgpt" list_args (state_at 0 1000)))
     <> "No conversations found in ChatGPT.".
Proof.
  apply (listing_never_empty world_no_chats (state_at 0 1000) list_args);
    reflexivity.
Defined.

(** When the buttons cannot be enumerated, the script's own handler answers:
    the result is the one name Unable to retrieve conversations, reported as
    a success, and not the Error-retrieving sentinel of line 192. *)
Theorem enumeration_failure_is_a_success
  (w : World) (st : State) (args : jsval) (e : string) :
  isChatGPTArgs args = true ->
  prop args "operation" = JStr "get_conversations" ->
  fst (checkChatGPTAccess w st) = Ok true ->
  ui_activate w = Ok tt ->
  ui_button_names w = Throw e ->
  fst (getConversations w st) = Ok ["Unable to retrieve conversations"]
  /\ fst (handler w "chatgpt" args st)
     = mkEnvelope ("Found 1 conversation(s):" ++ str1 newline ++ str1 newline
                   ++ "Unable to retrieve conversations") false.
Proof.
  intros Hv Hop Hprobe Hact Hnames.
  rewrite checkChatGPTAccess_run in Hprobe. cbn [fst] in Hprobe.
  rewrite (handler_get_conversations w args st Hv Hop).
  rewrite getConversations_run, Hprobe.
  unfold list_outcome. rewrite Hact, Hnames. split; reflexivity.
Qed.

Lemma enumeration_failure_witness :
  fst (getConversations world_enum_fails (state_at 0 1000))
    = Ok ["Unable to retrieve conversations"]
  /\ fst (handler world_enum_fails "chatgpt" list_args (state_at 0 1000))
     = mkEnvelope ("Found 1 conversation(s):" ++ str1 newline ++ str1 newline
                   ++ "Unable to retrieve conversations") false.
Proof.
  apply (enumeration_failure_is_a_success world_enum_fails (state_at 0 1000)
           list_args "Can't get group 1 of window 1");
    reflexivity.
Defined.



(** ** More on the rate limiter *)




(** With the previous stamp not ahead of the clock, one call suspends the
    caller at most once, for a time that is positive and at most the
    interval: never more than 120000 ms under the default. *)
Theorem wait_is_bounded (customDelay : option Z) (st : State) :
  lastRequestTime st <= clock st ->
  exists l,
    sleeps (log (snd (waitForRateLimit customDelay st)))
    = (sleeps (log st) ++ l)%list
    /\ (List.length l <= 1)%nat
    /\ Forall (fun ms => 0 < ms <= delay_or_default customDelay) l.
Proof.
  intros Hinv. rewrite waitForRateLimit_run. cbn [snd].
  unfold after_wait, wait_time.
  destruct (Z.ltb_spec (clock st - lastRequestTime st)
              (delay_or_default customDelay)).
  - exists [delay_or_default customDelay - (clock st - lastRequestTime st)].
    cbn [log]. rewrite sleeps_app. cbn [sleeps].
    repeat split; [cbn; lia|]. constructor; [lia|constructor].
  - exists []. rewrite app_nil_r. repeat split; [cbn; lia|constructor].
Qed.

Lemma wait_is_bounded_witness :
  exists l,
    sleeps (log (snd (waitForRateLimit None (state_at 1000000 1030000))))
    = (sleeps (log (state_at 1000000 1030000)) ++ l)%list
    /\ (List.length l <= 1)%nat
    /\ Forall (fun ms => 0 < ms <= delay_or_default None) l.
Proof.
  apply (wait_is_bounded None (state_at 1000000 1030000)).
  cbn. lia.
Defined.

(** The first ask after start-up is not suspended, as long as the clock
    reads at least the interval (any present-day [Date.now()] does):
    [lastRequestTime] starts at 0. *)
Theorem first_ask_is_not_suspended
  (w : World) (prompt : string) (conversationId : option string)
  (customDelay : option Z) (now : Z) :
  delay_or_default customDelay <= now ->
  sleeps (log (snd (askChatGPT w prompt conversationId customDelay
                      (initial now)))) = [].
Proof.
  intros Hnow. rewrite askChatGPT_run.
  destruct (probe_events_quiet w) as [_ Hq].
  pose proof (probe_time_nonneg w) as Hp.
  assert (Hfree : after_wait customDelay (after_probe w (initial now))
                  = after_probe w (initial now)).
  { unfold after_wait, wait_time. cbn [after_probe initial clock lastRequestTime].
    destruct (Z.ltb_spec (now + probe_time w - 0)
                (delay_or_default customDelay)); [lia|reflexivity]. }
  destruct (probe_result w).
  - cbv zeta. rewrite Hfree.
    destruct (ask_outcome w _ _); cbn [snd log after_probe initial];
      rewrite !sleeps_app, Hq; reflexivity.
  - cbn [snd log after_probe initial]. rewrite sleeps_app, Hq. reflexivity.
Qed.

Lemma first_ask_witness :
  sleeps (log (snd (askChatGPT world_ready "hi" None None
                      (initial 1700000000000)))) = [].
Proof.
  apply (first_ask_is_not_suspended world_ready "hi" None None 1700000000000).
  vm_compute. discriminate.
Defined.



(** ** Any run of the server *)

Lemma spaced_snoc (gap : Z) (l : list Z) (t : Z) :
  spaced gap l ->
  (l <> [] -> last l 0 + gap <= t) ->
  spaced gap (l ++ [t]).
Proof.
  induction l as [|a l IH]; intros Hs Hlast; [exact I|].
  destruct l as [|b r].
  - cbn. split; [|exact I]. apply Hlast. discriminate.
  - destruct Hs as [Hab Hs]. change (spaced gap (a :: (b :: r) ++ [t])).
    cbn [app spaced]. split; [exact Hab|].
    apply IH; [exact Hs|]. intros _. apply Hlast. discriminate.
Qed.

(** What one call does to the stamps. *)
Lemma handler_stamps (w : World) (name : string) (args : jsval) (st : State) :
  lastRequestTime st <= clock st ->
  let st' := snd (handler w name args st) in
  clock st <= clock st'
  /\ ((stamps (log st') = stamps (log st)
       /\ lastRequestTime st' = lastRequestTime st)
      \/ exists t,
           stamps (log st') = (stamps (log st) ++ [t])%list
           /\ lastRequestTime st' = t
           /\ lastRequestTime st
              + Z.max 0 (delay_or_default
                           (arg_opt_number (prop args "delay_ms"))) <= t).
Proof.
  intros Hinv. cbv zeta.
  pose proof (probe_time_nonneg w) as Hp.
  destruct (probe_events_quiet w) as [Hs _].
  assert (Hprobe : stamps (log (after_probe w st)) = stamps (log st)).
  { unfold after_probe. cbn [log]. rewrite stamps_app, Hs. apply app_nil_r. }
  destruct (handler_cases w name args st)
    as [[_ E] | [(_ & _ & E) | [(_ & _ & _ & E) | [C | C]]]];
    try (rewrite E; cbn [snd]; split; [lia|left; split; reflexivity]).
  - destruct C as (_ & _ & _ & E). rewrite E, askChatGPT_run.
    destruct (probe_result w) as [b|m].
    + cbv zeta.
      set (cd := arg_opt_number (prop args "delay_ms")).
      assert (Hclock : clock (after_wait cd (after_probe w st))
                       = Z.max (clock st + probe_time w)
                           (lastRequestTime st + delay_or_default cd)).
      { unfold after_wait, wait_time. cbn [after_probe clock lastRequestTime].
        destruct (Z.ltb_spec (clock st + probe_time w - lastRequestTime st)
                    (delay_or_default cd)); cbn [after_probe clock]; lia. }
      destruct (ask_outcome w _ _); cbn [snd clock log lastRequestTime];
        (split; [lia|]); right;
        exists (clock (after_wait cd (after_probe w st)));
        (split; [|split; [reflexivity|lia]]);
        rewrite stamps_app, after_wait_stamps, Hprobe; reflexivity.
    + cbn [snd after_probe clock log lastRequestTime].
      split; [lia|]. left. split; [exact Hprobe|reflexivity].
  - destruct C as (_ & _ & _ & E). rewrite E, getConversations_run.
    destruct (probe_result w) as [b|m].
    + cbv zeta. destruct (list_outcome w);
        cbn [snd after_probe clock log lastRequestTime];
        (split; [lia|]); left; rewrite stamps_app; cbn [stamps];
        rewrite app_nil_r; split; try reflexivity; exact Hprobe.
    + cbn [snd after_probe clock log lastRequestTime].
      split; [lia|]. left. split; [exact Hprobe|reflexivity].
Qed.

Lemma serve_invariants (gap : Z) (calls : list Call) (st : State) :
  Forall (fun c => gap <= Z.max 0 (call_delay c)) calls ->
  lastRequestTime st <= clock st ->
  spaced gap (stamps (log st)) ->
  last (stamps (log st)) 0 = lastRequestTime st ->
  let st' := serve calls st in
  spaced gap (stamps (log st'))
  /\ last (stamps (log st')) 0 = lastRequestTime st'
  /\ lastRequestTime st' <= clock st'
  /\ clock st <= clock st'.
Proof.
  intros Hall. revert st.
  induction Hall as [|c rest Hc Hrest IH]; intros st Hinv Hsp Hlast.
  - cbn. repeat split; try assumption. lia.
  - cbn [serve].
    set (st0 := mkState (lastRequestTime st)
                  (clock st + Z.of_N (call_idle c)) (log st)).
    assert (Hinv0 : lastRequestTime st0 <= clock st0)
      by (cbn [st0 lastRequestTime clock]; lia).
    pose proof (handler_stamps (call_world c) (call_name c) (call_args c)
                  st0 Hinv0) as H.
    cbv zeta in H. destruct H as [Hmono Hstamps].
    set (st1 := snd (handler (call_world c) (call_name c) (call_args c) st0))
      in *.
    assert (Hinv1 : lastRequestTime st1 <= clock st1)
      by (apply handler_stamp_not_in_future; exact Hinv0).
    assert (H1 : spaced gap (stamps (log st1))
                 /\ last (stamps (log st1)) 0 = lastRequestTime st1).
    { destruct Hstamps as [[Hs Hl] | (t & Hs & Hl & Ht)].
      - rewrite Hs, Hl. split; assumption.
      - rewrite Hs, Hl. split; [|apply last_last].
        apply spaced_snoc; [exact Hsp|]. intros _.
        cbn [st0 log lastRequestTime] in *. unfold call_delay in Hc.
        rewrite Hlast. lia. }
    destruct H1 as [Hsp1 Hlast1].
    destruct (IH st1 Hinv1 Hsp1 Hlast1) as (A & B & C & D).
    repeat split; try assumption.
    cbn [st0 clock] in Hmono. lia.
Qed.



(** Whatever calls are served and whatever intervals they ask for, the
    stamps never go back in time, [lastRequestTime] is always the latest
    stamp (0 before the first), it is never ahead of the clock, and the
    clock never runs backwards. *)
Theorem stamps_follow_the_clock (now : Z) (calls : list Call) :
  0 <= now ->
  let st := serve calls (initial now) in
  spaced 0 (stamps (log st))
  /\ last (stamps (log st)) 0 = lastRequestTime st
  /\ lastRequestTime st <= clock st
  /\ now <= clock st.
Proof.
  intros Hnow.
  apply (serve_invariants 0 calls (initial now)); try exact I.
  - apply Forall_forall. intros c _. lia.
  - exact Hnow.
  - reflexivity.
Qed.

Lemma stamps_follow_the_clock_witness :
  let st := serve [mkCall world_ready 0 "chatgpt" (ask_args_delay "one" (-5));
                   mkCall world_ready 5 "chatgpt" (ask_args_delay "two" (-5))]
              (initial 1700000000000) in
  spaced 0 (stamps (log st))
  /\ last (stamps (log st)) 0 = lastRequestTime st
  /\ lastRequestTime st <= clock st
  /\ 1700000000000 <= clock st.
Proof.
  apply (stamps_follow_the_clock 1700000000000
           [mkCall world_ready 0 "chatgpt" (ask_args_delay "one" (-5));
            mkCall world_ready 5 "chatgpt" (ask_args_delay "two" (-5))]).
  lia.
Defined.

(** ** More on the availability check *)

(** [checkChatGPTAccess] returns [true] or throws an error that starts with
    the Cannot-access text; it never returns [false].  It queries the
    process once, never suspends the caller, never writes [lastRequestTime],
    and runs the activation script exactly when the query answered anything
    but the text true. *)
Theorem access_check_outcomes (w : World) (st : State) :
  let r := fst (checkChatGPTAccess w st) in
  let st' := snd (checkChatGPTAccess w st) in
  (r = Ok true \/ exists cause, r = Throw (access_error_prefix ++ cause))
  /\ lastRequestTime st' = lastRequestTime st
  /\ sleeps (log st') = sleeps (log st)
  /\ (exists evs,
        log st' = (log st ++ evs)%list
        /\ List.length (filter is_probe evs) = 1%nat
        /\ (In EvLaunch evs
            <-> exists out, probe_exists w = Ok out /\ out <> "true")).
Proof.
  cbv zeta. rewrite checkChatGPTAccess_run. cbn [fst snd].
  destruct (probe_events_quiet w) as [_ Hq].
  split; [|split; [reflexivity|split]].
  - destruct (probe_result w) as [b|m] eqn:Hp.
    + left. unfold probe_result in Hp.
      destruct (probe_exists w) as [out|c]; [|discriminate].
      destruct (String.eqb out "true"); [symmetry; exact Hp|].
      destruct (probe_launch w); [symmetry; exact Hp|discriminate].
    + right. destruct (probe_result_failure w m Hp) as [cause ->].
      exists cause. reflexivity.
  - cbn [after_probe log]. rewrite sleeps_app, Hq. apply app_nil_r.
  - exists (probe_events w). split; [reflexivity|].
    unfold probe_events.
    destruct (probe_exists w) as [out|c].
    + destruct (String.eqb_spec out "true") as [->|Hout]; cbn; split;
        try reflexivity.
      * split; [intros [H|[]]; discriminate|].
        intros (out & H & Hne). injection H as <-. contradiction.
      * split; [|intros _; right; left; reflexivity].
        intros _. exists out. split; [reflexivity|exact Hout].
    + cbn. split; [reflexivity|]. split; [intros [H|[]]; discriminate|].
      intros (out & H & _). discriminate.
Qed.

(** When ChatGPT is not running, the check rests on the activation alone:
    if it succeeds the check passes without a second query, and if it fails
    the error is the fixed Could-not-activate text, whatever the activation
    error said. *)
Theorem access_check_when_not_running
  (w : World) (st : State) (out : string) :
  probe_exists w = Ok out -> out <> "true" ->
  fst (checkChatGPTAccess w st)
  = match probe_launch w with
    | Ok _ => Ok true
    | Throw _ =>
        Throw (access_error_prefix
               ++ "Could not activate ChatGPT app. Please start it manually.")
    end
  /\ log (snd (checkChatGPTAccess w st)) = (log st ++ [EvProbe; EvLaunch])%list
  /\ clock (snd (checkChatGPTAccess w st))
     = clock st + Z.of_N (d_probe w) + Z.of_N (d_launch w).
Proof.
  intros Hout Hne. rewrite checkChatGPTAccess_run. cbn [fst snd].
  unfold probe_result, after_probe, probe_events, probe_time.
  rewrite Hout. apply String.eqb_neq in Hne. rewrite Hne.
  cbn [log clock]. repeat split. lia.
Qed.

Lemma access_check_when_not_running_witness :
  fst (checkChatGPTAccess world_launch_fails (state_at 0 1000))
  = match probe_launch world_launch_fails with
    | Ok _ => Ok true
    | Throw _ =>
        Throw (access_error_prefix
               ++ "Could not activate ChatGPT app. Please start it manually.")
    end
  /\ log (snd (checkChatGPTAccess world_launch_fails (state_at 0 1000)))
     = (log (state_at 0 1000) ++ [EvProbe; EvLaunch])%list
  /\ clock (snd (checkChatGPTAccess world_launch_fails (state_at 0 1000)))
     = clock (state_at 0 1000) + Z.of_N (d_probe world_launch_fails)
       + Z.of_N (d_launch world_launch_fails).
Proof.
  apply (access_check_when_not_running world_launch_fails (state_at 0 1000)
           "false").
  - reflexivity.
  - discriminate.
Defined.

(** ** Conversation ids and prompts in the script *)

(** Selecting the conversation is best effort: when the click on the named
    button fails, the ask goes on and ends as it does without a
    conversation id. *)
Theorem failed_click_is_swallowed
  (w : World) (id name prompt typed e : string) :
  id <> "" ->
  interpolated id = Some name ->
  interpolated (escapeQuotes prompt) = Some typed ->
  ui_click w name = Throw e ->
  ask_outcome w (Some id) prompt = ask_outcome w None prompt.
Proof.
  intros Hne Hid Hp Hclick. unfold ask_outcome, click_target.
  apply String.eqb_neq in Hne. rewrite Hne, Hid, Hp.
  unfold ask_steps. rewrite Hclick. reflexivity.
Qed.

Lemma failed_click_witness :
  ask_outcome world_click_fails (Some "Trip plan") "hi"
  = ask_outcome world_click_fails None "hi".
Proof.
  apply (failed_click_is_swallowed world_click_fails "Trip plan" "Trip plan"
           "hi" "hi" "no such button");
    try reflexivity.
  discriminate.
Defined.

Lemma scan_plain_prefix (q r : string) :
  has_char bslash q = false ->
  scan_literal false (escapeQuotes q ++ r)
  = match scan_literal false r with
    | Some (body, rest) => Some (escapeQuotes q ++ body, rest)
    | None => None
    end.
Proof.
  induction q as [|c q IH]; intros H.
  - cbn. destruct (scan_literal false r) as [[b rest]|]; reflexivity.
  - cbn [has_char] in H. apply orb_false_iff in H as [Hc Hq].
    cbn [escapeQuotes].
    destruct (Ascii.eqb c dquote) eqn:Hdq.
    + cbn [String.append scan_literal].
      change (Ascii.eqb bslash dquote) with false.
      change (Ascii.eqb bslash bslash) with true. cbv iota.
      rewrite (IH Hq).
      destruct (scan_literal false r) as [[b rest]|]; reflexivity.
    + cbn [String.append scan_literal]. rewrite Hdq, Hc, (IH Hq).
      destruct (scan_literal false r) as [[b rest]|]; reflexivity.
Qed.

Lemma escapeQuotes_app (a b : string) :
  escapeQuotes (a ++ b) = escapeQuotes a ++ escapeQuotes b.
Proof.
  induction a as [|c a IH]; [reflexivity|].
  cbn [String.append escapeQuotes]. rewrite IH.
  destruct (Ascii.eqb c dquote); reflexivity.
Qed.

(** A prompt without a backslash reaches the keystroke step exactly as it
    was given, quotes included: escaping and AppleScript's reading of the
    literal cancel out. *)
Theorem plain_prompt_is_typed_verbatim (w : World) (prompt : string) :
  has_char bslash prompt = false ->
  interpolated (escapeQuotes prompt) = Some prompt
  /\ ask_outcome w None prompt = ask_steps w None prompt.
Proof.
  intros H. pose proof (interpolated_escapeQuotes prompt H) as Hi.
  split; [exact Hi|]. unfold ask_outcome. cbn [click_target]. rewrite Hi.
  reflexivity.
Qed.

Lemma plain_prompt_witness :
  interpolated (escapeQuotes ("say " ++ quoted "hi")) = Some ("say " ++ quoted "hi")
  /\ ask_outcome world_ready None ("say " ++ quoted "hi")
     = ask_steps world_ready None ("say " ++ quoted "hi").
Proof.
  apply (plain_prompt_is_typed_verbatim world_ready ("say " ++ quoted "hi")).
  reflexivity.
Defined.

(** A prompt that ends in a backslash breaks the script: the backslash
    takes the template's closing quote with it, the literal does not end
    where it should, and the steps of the ask script are not what runs. *)
Theorem trailing_backslash_breaks_the_script
  (w : World) (conversationId : option string) (q : string) :
  has_char bslash q = false ->
  interpolated (escapeQuotes (q ++ str1 bslash)) = None
  /\ ask_outcome w conversationId (q ++ str1 bslash)
     = ui_other w (askScript conversationId (q ++ str1 bslash)).
Proof.
  intros H.
  assert (Hi : interpolated (escapeQuotes (q ++ str1 bslash)) = None).
  { unfold interpolated. rewrite escapeQuotes_app, append_assoc.
    rewrite (scan_plain_prefix q _ H). reflexivity. }
  split; [exact Hi|]. unfold ask_outcome. rewrite Hi.
  destruct (click_target conversationId); reflexivity.
Qed.

Lemma trailing_backslash_witness :
  interpolated (escapeQuotes ("C:" ++ str1 bslash)) = None
  /\ ask_outcome world_ready None ("C:" ++ str1 bslash)
     = ui_other world_ready (askScript None ("C:" ++ str1 bslash)).
Proof.
  apply (trailing_backslash_breaks_the_script world_ready None "C:").
  reflexivity.
Defined.

Lemma scan_unescaped_quote (s r : string) :
  has_char bslash s = false ->
  has_char dquote s = true ->
  exists body rest,
    scan_literal false (s ++ str1 dquote ++ r) = Some (body, rest)
    /\ rest <> "".
Proof.
  induction s as [|c s IH]; intros Hb Hq; [discriminate|].
  cbn [has_char] in Hb, Hq. apply orb_false_iff in Hb as [Hcb Hsb].
  cbn [String.append scan_literal].
  destruct (Ascii.eqb c dquote) eqn:Hdq.
  - exists "", (s ++ str1 dquote ++ r). split; [reflexivity|].
    destruct s; discriminate.
  - rewrite Hcb. cbn [orb] in Hq.
    destruct (IH Hsb Hq) as (body & rest & Hscan & Hne).
    rewrite Hscan. exists (String c body), rest. split; [reflexivity|exact Hne].
Qed.

(** The conversation id is spliced into the script as it comes (line 122,
    no escaping): an id that holds a double quote (and no backslash) ends
    the literal early, and the steps of the ask script are not what runs,
    whatever the prompt. *)
Theorem quoted_conversation_id_breaks_the_script
  (w : World) (id prompt : string) :
  has_char bslash id = false ->
  has_char dquote id = true ->
  interpolated id = None
  /\ ask_outcome w (Some id) prompt
     = ui_other w (askScript (Some id) prompt).
Proof.
  intros Hb Hq.
  assert (Hi : interpolated id = None).
  { unfold interpolated.
    destruct (scan_unescaped_quote id "" Hb Hq) as (body & rest & Hs & Hne).
    change (str1 dquote ++ "") with (str1 dquote) in Hs. rewrite Hs.
    destruct rest; [contradiction|reflexivity]. }
  split; [exact Hi|]. unfold ask_outcome, click_target. rewrite Hi.
  destruct (String.eqb_spec id "") as [->|_]; [discriminate|reflexivity].
Qed.

Lemma quoted_conversation_id_witness :
  interpolated ("my " ++ quoted "best" ++ " chat") = None
  /\ ask_outcome world_ready (Some ("my " ++ quoted "best" ++ " chat")) "hi"
     = ui_other world_ready
         (askScript (Some ("my " ++ quoted "best" ++ " chat")) "hi").
Proof.
  apply (quoted_conversation_id_breaks_the_script world_ready
           ("my " ++ quoted "best" ++ " chat") "hi");
    reflexivity.
Defined.

(** What the replace of line 128 does to a text: every double quote of the
    result stands right after a backslash, the result is longer by one
    character per double quote, and a text without double quotes is left as
    it is. *)
Theorem escapeQuotes_text (s : string) :
  quotes_guarded false (escapeQuotes s) = true
  /\ String.length (escapeQuotes s)
     = (String.length s + count_char dquote s)%nat
  /\ (has_char dquote s = false -> escapeQuotes s = s).
Proof.
  split; [|split].
  - generalize false.
    induction s as [|c s IH]; intros prev; [reflexivity|].
    cbn [escapeQuotes].
    destruct (Ascii.eqb c dquote) eqn:Hq.
    + cbn [quotes_guarded].
      change (Ascii.eqb bslash dquote) with false.
      change (Ascii.eqb bslash bslash) with true.
      change (Ascii.eqb dquote dquote) with true.
      change (Ascii.eqb dquote bslash) with false.
      cbn [negb orb andb]. apply IH.
    + cbn [quotes_guarded]. rewrite Hq. cbn [negb orb andb]. apply IH.
  - induction s as [|c s IH]; [reflexivity|].
    cbn [escapeQuotes count_char String.length].
    destruct (Ascii.eqb c dquote); cbn [String.length]; rewrite IH; lia.
  - induction s as [|c s IH]; intros H; [reflexivity|].
    cbn [has_char] in H. apply orb_false_iff in H as [Hc Hs].
    cbn [escapeQuotes]. rewrite Hc, (IH Hs). reflexivity.
Qed.

(** ** The parse of the printed list *)

Lemma join_cons (sep x : string) (l : list string) :
  l <> [] -> join sep (x :: l) = x ++ sep ++ join sep l.
Proof. destruct l; [contradiction|reflexivity]. Qed.

Lemma join_split_aux (n : nat) :
  forall s cur,
    (String.length s <= n)%nat ->
    join ", " (split_aux ", " O cur s) = cur ++ s.
Proof.
  induction n as [|n IH]; intros s cur Hlen.
  - destruct s; [|cbn in Hlen; lia]. cbn. symmetry. apply append_empty_r.
  - destruct s as [|c s]; [cbn; symmetry; apply append_empty_r|].
    cbn [split_aux].
    destruct (is_prefix ", " (String c s)) eqn:Hpre.
    + cbn [is_prefix] in Hpre.
      destruct (Ascii.eqb_spec "," c) as [<-|]; [|discriminate].
      destruct s as [|b s]; [discriminate|].
      cbn [is_prefix andb] in Hpre.
      destruct (Ascii.eqb_spec " " b) as [<-|]; [|discriminate].
      change (Nat.pred (String.length ", ")) with 1%nat.
      cbn [split_aux].
      rewrite join_cons by apply split_aux_nonempty.
      rewrite IH by (cbn in Hlen; lia). reflexivity.
    + rewrite IH by (cbn in Hlen; lia).
      rewrite append_assoc. reflexivity.
Qed.

(** The parse of line 188 loses nothing and never yields the empty list:
    the pieces, joined again with comma, space, are the text that was
    split.  So what [getConversations] returns always re-joins to what the
    listing script printed, also when a title was cut in two. *)
Theorem split_then_join (s : string) :
  join ", " (split ", " s) = s /\ split ", " s <> [].
Proof.
  split; [|apply split_aux_nonempty].
  unfold split. apply (join_split_aux (String.length s)). lia.
Qed.
